(** * Risk-scoring engine of the auto-insurance fraud report

    A shallow embedding of [apply_rules] from [src/fraud_detection.py] and of
    the [loss_ratio] column of [src/generate_mock_data.py], with the
    properties the specification states about them.

    Numeric policy of the model.  The float columns [annual_premium],
    [total_loss] and [loss_ratio] are exact rationals ([Q]); a float that
    pandas reports as NaN is [None].  A standard deviation is the square root
    of a rational, so the per-band threshold [mean + 3 * std] is kept exact as
    the pair (mean, variance) and a comparison against it is decided by
    squaring.  Equality of numbers is [Qeq] ([==]).

    Effects of the model.  DataFrames are objects on a heap, addressed by
    reference; every statement of [apply_rules] that reads or writes a frame
    is one step of a small state-and-exception monad over the heap and the
    standard output. *)

From Stdlib Require Import List ZArith QArith Qround Qreduction.
From Stdlib Require Import String Ascii Bool Lia Permutation Sorted.
From Stdlib Require Import DecimalString.
From Stdlib Require Import Reals Qreals Lra.
Import ListNotations.

Local Open Scope Q_scope.

(** ** Numbers *)

Module Num.

(** Strict and large comparisons of floats as booleans. *)
Definition Qltb (x y : Q) : bool := negb (Qle_bool y x).
Definition Qleb (x y : Q) : bool := Qle_bool x y.

Definition Qsum (l : list Q) : Q := fold_right Qplus 0 l.

Definition Qlen (l : list Q) : Q := inject_Z (Z.of_nat (List.length l)).

(** [Series.mean]: NaN on an empty series. *)
Definition mean (l : list Q) : option Q :=
  match l with
  | [] => None
  | _ => Some (Qsum l / Qlen l)
  end.

(** The square of [Series.std] (pandas default [ddof=1], the sample
    statistic): NaN when fewer than two values are present. *)
Definition var (l : list Q) : option Q :=
  match mean l with
  | None => None
  | Some m =>
      if (List.length l <? 2)%nat then None
      else Some (Qsum (map (fun x => (x - m) * (x - m)) l) / (Qlen l - 1))
  end.

(** Ascending sort of the values of a column (insertion sort). *)
Fixpoint insert (x : Q) (l : list Q) : list Q :=
  match l with
  | [] => [x]
  | y :: t => if Qle_bool x y then x :: l else y :: insert x t
  end.

Definition sort (l : list Q) : list Q := fold_right insert [] l.

(** [Series.quantile(q)] with the default linear interpolation between the
    two order statistics around the position [(n - 1) * q]; NaN on an empty
    series. *)
Definition quantile (q : Q) (col : list Q) : option Q :=
  match col with
  | [] => None
  | _ =>
      let s := sort col in
      let h := inject_Z (Z.of_nat (List.length col) - 1) * q in
      let lo := Z.to_nat (Qfloor h) in
      let hi := Nat.min (S lo) (List.length col - 1) in
      let a := nth lo s 0 in
      let b := nth hi s 0 in
      Some (a + (b - a) * (h - inject_Z (Qfloor h)))
  end.

(** The value [mean + 3 * std], with [std = sqrt variance] kept under the
    root. *)
Record Threshold := mean_plus_3std { thr_mean : Q; thr_var : Q }.

(** [x > mean + 3 * sqrt variance], decided exactly: the difference is
    positive and its square exceeds nine times the variance.  A NaN
    threshold compares false. *)
Definition gt_threshold (x : Q) (t : option Threshold) : bool :=
  match t with
  | None => false
  | Some t => Qltb (thr_mean t) x
              && Qltb (9 * thr_var t) ((x - thr_mean t) * (x - thr_mean t))
  end.

(** A rational in lowest terms. *)
Definition reduced (x : Q) : Prop := Qred x = x.

(** Equality of floats that may be NaN. *)
Definition eqf (a b : option Q) : Prop :=
  match a, b with
  | None, None => True
  | Some x, Some y => x == y
  | _, _ => False
  end.

End Num.

(** ** The dataset *)

Inductive Gender := Male | Female.

(** One row of [auto_insurance_data.csv]. *)
Record PolicyRecord := {
  customer_id : Z;
  gender : Gender;
  age : Z;
  car_model_year : Z;
  annual_premium : Q;
  total_loss : Q;
  loss_ratio : Q
}.

(** The categories of the [age_group] column. *)
Inductive AgeBand := under25 | from25to34 | from35to44 | from45to54 | from55to64 | over65.

Definition AgeBand_eqb (a b : AgeBand) : bool :=
  match a, b with
  | under25, under25 | from25to34, from25to34 | from35to44, from35to44
  | from45to54, from45to54 | from55to64, from55to64 | over65, over65 => true
  | _, _ => false
  end.

Definition AgeBand_label (b : AgeBand) : string :=
  match b with
  | under25 => "<25"
  | from25to34 => "25-34"
  | from35to44 => "35-44"
  | from45to54 => "45-54"
  | from55to64 => "55-64"
  | over65 => "65+"
  end.

(** A DataFrame: the seven dataset columns row by row, in index order, and the
    columns [apply_rules] adds, each present or absent. *)
Record DataFrame := {
  rows : list PolicyRecord;
  risk_score : option (list Z);
  flags : option (list string);
  age_group : option (list (option AgeBand));
  outlier_threshold : option (list (option Num.Threshold))
}.

Definition set_risk_score (col : list Z) (d : DataFrame) : DataFrame :=
  {| rows := rows d; risk_score := Some col; flags := flags d;
     age_group := age_group d; outlier_threshold := outlier_threshold d |}.

Definition set_flags (col : list string) (d : DataFrame) : DataFrame :=
  {| rows := rows d; risk_score := risk_score d; flags := Some col;
     age_group := age_group d; outlier_threshold := outlier_threshold d |}.

Definition set_age_group (col : list (option AgeBand)) (d : DataFrame) : DataFrame :=
  {| rows := rows d; risk_score := risk_score d; flags := flags d;
     age_group := Some col; outlier_threshold := outlier_threshold d |}.

Definition set_outlier_threshold (col : list (option Num.Threshold)) (d : DataFrame)
  : DataFrame :=
  {| rows := rows d; risk_score := risk_score d; flags := flags d;
     age_group := age_group d; outlier_threshold := Some col |}.

(** ** pandas operations used by the engine *)

Module Pd.

(** Selection of the entries of a column where the boolean mask holds. *)
Fixpoint select {A} (mask : list bool) (col : list A) : list A :=
  match mask, col with
  | m :: ms, x :: xs => if m then x :: select ms xs else select ms xs
  | _, _ => []
  end.

(** [df[mask]]: every column is restricted to the rows of the mask. *)
Definition getitem_mask (mask : list bool) (d : DataFrame) : DataFrame :=
  {| rows := select mask (rows d);
     risk_score := option_map (select mask) (risk_score d);
     flags := option_map (select mask) (flags d);
     age_group := option_map (select mask) (age_group d);
     outlier_threshold := option_map (select mask) (outlier_threshold d) |}.

(** [col.loc[mask] += v] on an integer column. *)
Fixpoint add_where (mask : list bool) (v : Z) (col : list Z) : list Z :=
  match mask, col with
  | m :: ms, x :: xs => (if m then (x + v)%Z else x) :: add_where ms v xs
  | _, _ => col
  end.

(** [col.loc[mask] += s] on a string column. *)
Fixpoint append_where (mask : list bool) (s : string) (col : list string)
  : list string :=
  match mask, col with
  | m :: ms, x :: xs => (if m then (x ++ s)%string else x) :: append_where ms s xs
  | _, _ => col
  end.

(** [int(mask.sum())]. *)
Definition mask_sum (mask : list bool) : nat := List.length (filter (fun b => b) mask).

(** [pd.cut(x, bins, labels, right=False)]: the label of the interval
    [bins[i] <= x < bins[i+1]] that holds [x], NaN when there is none. *)
Fixpoint cut {L} (bins : list Z) (labels : list L) (x : Z) : option L :=
  match bins, labels with
  | lo :: (hi :: _) as rest, lab :: labs =>
      if ((lo <=? x) && (x <? hi))%Z then Some lab else cut rest labs x
  | _, _ => None
  end.

(** The values of a group: the entries of [vals] whose key is the band. *)
Definition group_values (b : AgeBand) (keys : list (option AgeBand)) (vals : list Q)
  : list Q :=
  select (map (fun k => match k with
                        | Some k => AgeBand_eqb k b
                        | None => false
                        end) keys) vals.

(** [groupby(key, observed=True)[col]]: the groups in category order, the
    categories without a row left out, rows with a NaN key dropped. *)
Definition groupby (categories : list AgeBand) (keys : list (option AgeBand))
           (vals : list Q) : list (AgeBand * list Q) :=
  flat_map (fun b => match group_values b keys vals with
                     | [] => []
                     | g => [(b, g)]
                     end) categories.

(** Lookup in a series indexed by age band. *)
Fixpoint lookup {V} (b : AgeBand) (s : list (AgeBand * V)) : option V :=
  match s with
  | [] => None
  | (k, v) :: t => if AgeBand_eqb k b then Some v else lookup b t
  end.

(** [keys.map(series)]: NaN for a NaN key and for a key the series lacks. *)
Definition map_series {V} (s : list (AgeBand * option V)) (keys : list (option AgeBand))
  : list (option V) :=
  map (fun k => match k with
                | None => None
                | Some b => match lookup b s with
                            | Some v => v
                            | None => None
                            end
                end) keys.

(** [str.rstrip(c)] for a single character. *)
Fixpoint rstrip (c : ascii) (s : string) : string :=
  match s with
  | EmptyString => EmptyString
  | String a t =>
      match rstrip c t with
      | EmptyString => if Ascii.eqb a c then EmptyString else String a EmptyString
      | t' => String a t'
      end
  end.

End Pd.

(** ** Python objects and effects *)

Module Py.

(** What a statement of the engine can raise. *)
Inductive exn := KeyError (key : string) | ReferenceError.

(** A reference to a DataFrame object. *)
Definition ref := nat.

(** The objects alive, the next free reference, and what was printed. *)
Record World := {
  next : ref;
  heap : ref -> option DataFrame;
  stdout : list string
}.

Definition upd (r : ref) (d : DataFrame) (h : ref -> option DataFrame)
  : ref -> option DataFrame :=
  fun r' => if Nat.eqb r' r then Some d else h r'.

(** A statement: it runs in a world, returns or raises, and leaves a world. *)
Definition M (A : Type) : Type := World -> (exn + A) * World.

Definition ret {A} (a : A) : M A := fun w => (inr a, w).

Definition bind {A B} (m : M A) (k : A -> M B) : M B :=
  fun w => match m w with
           | (inr a, w') => k a w'
           | (inl e, w') => (inl e, w')
           end.

(** The world after an allocation, an in-place update, a line printed. *)
Definition alloc (d : DataFrame) (w : World) : World :=
  {| next := S (next w); heap := upd (next w) d (heap w); stdout := stdout w |}.

Definition write (r : ref) (d : DataFrame) (w : World) : World :=
  {| next := next w; heap := upd r d (heap w); stdout := stdout w |}.

Definition emit (s : string) (w : World) : World :=
  {| next := next w; heap := heap w; stdout := (stdout w ++ [s])%list |}.

(** A new object. *)
Definition new (d : DataFrame) : M ref :=
  fun w => (inr (next w), alloc d w).

(** An expression that reads the object behind [r]. *)
Definition inspect {A} (r : ref) (f : DataFrame -> exn + A) : M A :=
  fun w => match heap w r with
           | None => (inl ReferenceError, w)
           | Some d => (f d, w)
           end.

(** A statement that updates the object behind [r] in place. *)
Definition modify (r : ref) (f : DataFrame -> exn + DataFrame) : M unit :=
  fun w => match heap w r with
           | None => (inl ReferenceError, w)
           | Some d =>
               match f d with
               | inl e => (inl e, w)
               | inr d' => (inr tt, write r d' w)
               end
           end.

(** [print(s)]. *)
Definition print (s : string) : M unit :=
  fun w => (inr tt, emit s w).

(** Every live object has a reference below the next free one. *)
Definition wf (w : World) : Prop :=
  forall r d, heap w r = Some d -> (r < next w)%nat.

End Py.

Declare Scope py_scope.
Delimit Scope py_scope with py.
Notation "x <- m ;; k" := (Py.bind m (fun x => k))
  (at level 100, m at next level, right associativity) : py_scope.
Notation "m ;;; k" := (Py.bind m (fun _ => k))
  (at level 100, right associativity) : py_scope.

(** ** The mock-data generator's [loss_ratio] column *)

Module MockData.

(** Rounding of a float to the nearest integer, ties to the even one, as
    [numpy.round] does. *)
Definition round_half_even (x : Q) : Z :=
  let f := Qfloor x in
  match Qcompare (x - inject_Z f) (1 # 2) with
  | Lt => f
  | Gt => (f + 1)%Z
  | Eq => if Z.even f then f else (f + 1)%Z
  end.

(** [x.round(4)]. *)
Definition round4 (x : Q) : Q := inject_Z (round_half_even (x * 10000)) / 10000.

(** [np.where(annual_premium > 0, total_loss / annual_premium, 0.0).round(4)] *)
Definition loss_ratio (annual_premium total_loss : Q) : Q :=
  round4 (if Num.Qltb 0 annual_premium then total_loss / annual_premium else 0).

End MockData.

(** ** Rule definitions *)

(** The keys of [RULE_DEFINITIONS], in the order the engine evaluates them. *)
Inductive Rule :=
| extreme_loss_ratio
| statistical_outlier
| new_car_high_loss
| young_driver_extreme
| premium_loss_mismatch.

Definition rule_name (r : Rule) : string :=
  match r with
  | extreme_loss_ratio => "extreme_loss_ratio"
  | statistical_outlier => "statistical_outlier"
  | new_car_high_loss => "new_car_high_loss"
  | young_driver_extreme => "young_driver_extreme"
  | premium_loss_mismatch => "premium_loss_mismatch"
  end.

Record RuleDefinition := { label : string; score : Z }.

Definition RULE_DEFINITIONS (r : Rule) : RuleDefinition :=
  match r with
  | extreme_loss_ratio =>
      {| label := "Extreme Loss Ratio (>15x)"; score := 3 |}
  | statistical_outlier =>
      {| label := "Statistical Outlier (>mean+3*std by age group)"; score := 2 |}
  | new_car_high_loss =>
      {| label := "New Car (>=2022), High Loss (>$10k)"; score := 2 |}
  | young_driver_extreme =>
      {| label := "Young Driver (<25), Extreme Claim (>$15k)"; score := 2 |}
  | premium_loss_mismatch =>
      {| label := "Premium-Loss Mismatch (top 5% loss, bottom 25% premium)";
         score := 1 |}
  end.

Definition Rule_eqb (a b : Rule) : bool :=
  match a, b with
  | extreme_loss_ratio, extreme_loss_ratio
  | statistical_outlier, statistical_outlier
  | new_car_high_loss, new_car_high_loss
  | young_driver_extreme, young_driver_extreme
  | premium_loss_mismatch, premium_loss_mismatch => true
  | _, _ => false
  end.

(** The dict [flag_counts], in insertion order. *)
Definition FlagCounts := list (Rule * nat).

(** [flag_counts[rule] = n] *)
Fixpoint dict_set (rule : Rule) (n : nat) (fc : FlagCounts) : FlagCounts :=
  match fc with
  | [] => [(rule, n)]
  | (k, v) :: t => if Rule_eqb k rule then (k, n) :: t else (k, v) :: dict_set rule n t
  end.

(** The third component of the result of [apply_rules]. *)
Record Thresholds := {
  loss_95_threshold : option Q;
  premium_25_threshold : option Q;
  age_group_thresholds : list (AgeBand * option Num.Threshold)
}.

(** ** Formatting *)

Module Fmt.

(** A comma before every group of three digits, on the reversed digits;
    [k] counts the digits of the current group already passed. *)
Fixpoint group3 (rev_digits : list ascii) (k : nat) : list ascii :=
  match rev_digits with
  | [] => []
  | d :: t =>
      match k with
      | 3%nat => ","%char :: d :: group3 t 1
      | _ => d :: group3 t (S k)
      end
  end.

(** The format [{n:,}] of a natural number. *)
Definition thousands (n : nat) : string :=
  string_of_list_ascii
    (rev (group3 (rev (list_ascii_of_string
                         (NilEmpty.string_of_uint (Nat.to_uint n)))) 0)).

Definition newline : string := String "010"%char EmptyString.

End Fmt.

(** ** The engine: [apply_rules] *)

Definition bins : list Z := [0; 25; 35; 45; 55; 65; 200]%Z.

Definition labels : list AgeBand :=
  [under25; from25to34; from35to44; from45to54; from55to64; over65].

(** [claims["name"]] raises [KeyError] on a column the frame lacks. *)
Definition column {A} (name : string) (col : option A) : Py.exn + A :=
  match col with
  | Some c => inr c
  | None => inl (Py.KeyError name)
  end.

(** [claims.loc[mask, "risk_score"] += v] *)
Definition loc_add_risk_score (mask : list bool) (v : Z) (c : DataFrame)
  : Py.exn + DataFrame :=
  match column "risk_score" (risk_score c) with
  | inl e => inl e
  | inr col => inr (set_risk_score (Pd.add_where mask v col) c)
  end.

(** [claims.loc[mask, "flags"] += s] *)
Definition loc_append_flags (mask : list bool) (s : string) (c : DataFrame)
  : Py.exn + DataFrame :=
  match column "flags" (flags c) with
  | inl e => inl e
  | inr col => inr (set_flags (Pd.append_where mask s col) c)
  end.

(** [groupby("age_group", observed=True)["total_loss"].agg(["mean", "std"])],
    the standard deviation under its square. *)
Definition group_stats_of (c : DataFrame)
  : Py.exn + list (AgeBand * (option Q * option Q)) :=
  match column "age_group" (age_group c) with
  | inl e => inl e
  | inr keys =>
      inr (map (fun g => (fst g, (Num.mean (snd g), Num.var (snd g))))
               (Pd.groupby labels keys (map total_loss (rows c))))
  end.

(** [mean + 3 * std] of one group; NaN when either operand is. *)
Definition threshold_of (s : option Q * option Q) : option Num.Threshold :=
  match s with
  | (Some m, Some v) => Some (Num.mean_plus_3std m v)
  | _ => None
  end.

(** [claims["age_group"].map(group_stats["threshold"]).astype(float)] stored
    as the column [outlier_threshold]. *)
Definition map_outlier_threshold (thr : list (AgeBand * option Num.Threshold))
           (c : DataFrame) : Py.exn + DataFrame :=
  match column "age_group" (age_group c) with
  | inl e => inl e
  | inr keys => inr (set_outlier_threshold (Pd.map_series thr keys) c)
  end.

(** [claims["total_loss"] > claims["outlier_threshold"]], row by row. *)
Fixpoint gt_columns (xs : list Q) (ts : list (option Num.Threshold)) : list bool :=
  match xs, ts with
  | x :: xs', t :: ts' => Num.gt_threshold x t :: gt_columns xs' ts'
  | _, _ => []
  end.

Definition outlier_mask (c : DataFrame) : Py.exn + list bool :=
  match column "outlier_threshold" (outlier_threshold c) with
  | inl e => inl e
  | inr ts => inr (gt_columns (map total_loss (rows c)) ts)
  end.

(** [x >= t] and [x <= t] against a cutoff that may be NaN (then false). *)
Definition ge_cutoff (x : Q) (t : option Q) : bool :=
  match t with Some t => Num.Qleb t x | None => false end.

Definition le_cutoff (x : Q) (t : option Q) : bool :=
  match t with Some t => Num.Qleb x t | None => false end.

(** [claims["flags"] = claims["flags"].str.rstrip(",")] *)
Definition rstrip_flags (c : DataFrame) : Py.exn + DataFrame :=
  match column "flags" (flags c) with
  | inl e => inl e
  | inr col => inr (set_flags (map (Pd.rstrip ","%char) col) c)
  end.

(** [claims.drop(columns=["age_group", "outlier_threshold"], inplace=True)] *)
Definition drop_helpers (c : DataFrame) : Py.exn + DataFrame :=
  match column "age_group" (age_group c) with
  | inl e => inl e
  | inr _ =>
      match column "outlier_threshold" (outlier_threshold c) with
      | inl e => inl e
      | inr _ => inr {| rows := rows c; risk_score := risk_score c;
                        flags := flags c; age_group := None;
                        outlier_threshold := None |}
      end
  end.

Definition claims_message (n : nat) : string :=
  ("Customers with claims (total_loss > 0): " ++ Fmt.thousands n ++ Fmt.newline)%string.

Local Open Scope py_scope.

(** [apply_rules(df)], statement by statement.  It returns the reference of
    the new frame [claims], the dict [flag_counts] and the thresholds. *)
Definition apply_rules (df : Py.ref) : Py.M (Py.ref * FlagCounts * Thresholds) :=
  (* claims = df[df["total_loss"] > 0].copy() *)
  mask <- Py.inspect df
            (fun d => inr (map (fun r => Num.Qltb 0 (total_loss r)) (rows d))) ;;
  selected <- Py.inspect df (fun d => inr (Pd.getitem_mask mask d)) ;;
  tmp <- Py.new selected ;;
  copy <- Py.inspect tmp inr ;;
  claims <- Py.new copy ;;
  n <- Py.inspect claims (fun c => inr (List.length (rows c))) ;;
  Py.print (claims_message n) ;;;
  (* Initialise tracking columns *)
  Py.modify claims (fun c => inr (set_risk_score (repeat 0%Z (List.length (rows c))) c)) ;;;
  Py.modify claims (fun c => inr (set_flags (repeat EmptyString (List.length (rows c))) c)) ;;;
  let flag_counts : FlagCounts := [] in
  (* Rule 1: Extreme Loss Ratio *)
  let rule := extreme_loss_ratio in
  mask <- Py.inspect claims
            (fun c => inr (map (fun r => Num.Qltb 15 (loss_ratio r)) (rows c))) ;;
  Py.modify claims (loc_add_risk_score mask (score (RULE_DEFINITIONS rule))) ;;;
  Py.modify claims (loc_append_flags mask (rule_name rule ++ ",")) ;;;
  let flag_counts := dict_set rule (Pd.mask_sum mask) flag_counts in
  (* Rule 2: Statistical Outlier by age group *)
  let rule := statistical_outlier in
  Py.modify claims
    (fun c => inr (set_age_group (map (fun r => Pd.cut bins labels (age r)) (rows c)) c)) ;;;
  group_stats <- Py.inspect claims group_stats_of ;;
  let threshold := map (fun g => (fst g, threshold_of (snd g))) group_stats in
  Py.modify claims (map_outlier_threshold threshold) ;;;
  mask <- Py.inspect claims outlier_mask ;;
  Py.modify claims (loc_add_risk_score mask (score (RULE_DEFINITIONS rule))) ;;;
  Py.modify claims (loc_append_flags mask (rule_name rule ++ ",")) ;;;
  let flag_counts := dict_set rule (Pd.mask_sum mask) flag_counts in
  (* Rule 3: New Car, High Loss *)
  let rule := new_car_high_loss in
  mask <- Py.inspect claims
            (fun c => inr (map (fun r => (2022 <=? car_model_year r)%Z
                                         && Num.Qltb 10000 (total_loss r)) (rows c))) ;;
  Py.modify claims (loc_add_risk_score mask (score (RULE_DEFINITIONS rule))) ;;;
  Py.modify claims (loc_append_flags mask (rule_name rule ++ ",")) ;;;
  let flag_counts := dict_set rule (Pd.mask_sum mask) flag_counts in
  (* Rule 4: Young Driver, Extreme Claim *)
  let rule := young_driver_extreme in
  mask <- Py.inspect claims
            (fun c => inr (map (fun r => (age r <? 25)%Z
                                         && Num.Qltb 15000 (total_loss r)) (rows c))) ;;
  Py.modify claims (loc_add_risk_score mask (score (RULE_DEFINITIONS rule))) ;;;
  Py.modify claims (loc_append_flags mask (rule_name rule ++ ",")) ;;;
  let flag_counts := dict_set rule (Pd.mask_sum mask) flag_counts in
  (* Rule 5: Premium-Loss Mismatch *)
  let rule := premium_loss_mismatch in
  loss_95 <- Py.inspect claims
               (fun c => inr (Num.quantile (95 # 100) (map total_loss (rows c)))) ;;
  premium_25 <- Py.inspect claims
                  (fun c => inr (Num.quantile (25 # 100) (map annual_premium (rows c)))) ;;
  mask <- Py.inspect claims
            (fun c => inr (map (fun r => ge_cutoff (total_loss r) loss_95
                                         && le_cutoff (annual_premium r) premium_25)
                               (rows c))) ;;
  Py.modify claims (loc_add_risk_score mask (score (RULE_DEFINITIONS rule))) ;;;
  Py.modify claims (loc_append_flags mask (rule_name rule ++ ",")) ;;;
  let flag_counts := dict_set rule (Pd.mask_sum mask) flag_counts in
  (* Clean trailing commas from flags *)
  Py.modify claims rstrip_flags ;;;
  (* Drop helper columns *)
  Py.modify claims drop_helpers ;;;
  Py.ret (claims, flag_counts,
          {| loss_95_threshold := loss_95;
             premium_25_threshold := premium_25;
             age_group_thresholds := threshold |}).

(** A world that holds the dataset alone, as after [load_data]. *)
Definition loaded (df : DataFrame) : Py.World :=
  {| Py.next := 1%nat; Py.heap := Py.upd 0%nat df (fun _ => None); Py.stdout := [] |}.

(** What [main] receives from the engine on a dataset: the frame behind the
    returned reference, the trigger counts and the thresholds; or the
    exception raised. *)
Definition engine (df : DataFrame) : Py.exn + (DataFrame * FlagCounts * Thresholds) :=
  match apply_rules 0%nat (loaded df) with
  | (inl e, _) => inl e
  | (inr (claims, fc, th), w) =>
      match Py.heap w claims with
      | Some c => inr (c, fc, th)
      | None => inl Py.ReferenceError
      end
  end.

Local Close Scope py_scope.

(** ** The rule table, record by record *)

(** The claim subset of a dataset: the records with [total_loss > 0], in
    dataset order. *)
Definition claim_subset (d : DataFrame) : list PolicyRecord :=
  filter (fun r => Num.Qltb 0 (total_loss r)) (rows d).

(** The age band of a record. *)
Definition band (r : PolicyRecord) : option AgeBand := Pd.cut bins labels (age r).

Definition in_band (b : AgeBand) (r : PolicyRecord) : bool :=
  match band r with
  | Some k => AgeBand_eqb k b
  | None => false
  end.

(** The losses of the claim records of one band. *)
Definition band_losses (cs : list PolicyRecord) (b : AgeBand) : list Q :=
  map total_loss (filter (in_band b) cs).

(** [mean + 3 * std] of the losses of one band. *)
Definition band_threshold (cs : list PolicyRecord) (b : AgeBand) : option Num.Threshold :=
  threshold_of (Num.mean (band_losses cs b), Num.var (band_losses cs b)).

(** The outlier threshold that applies to a record: that of its band. *)
Definition record_threshold (cs : list PolicyRecord) (r : PolicyRecord)
  : option Num.Threshold :=
  match band r with
  | Some b => band_threshold cs b
  | None => None
  end.

Definition loss_p95 (cs : list PolicyRecord) : option Q :=
  Num.quantile (95 # 100) (map total_loss cs).

Definition premium_p25 (cs : list PolicyRecord) : option Q :=
  Num.quantile (25 # 100) (map annual_premium cs).

(** The predicate of each rule of the table for a record [r] of the claim
    subset [cs]. *)
Definition rule_holds (cs : list PolicyRecord) (rule : Rule) (r : PolicyRecord) : bool :=
  match rule with
  | extreme_loss_ratio => Num.Qltb 15 (loss_ratio r)
  | statistical_outlier => Num.gt_threshold (total_loss r) (record_threshold cs r)
  | new_car_high_loss =>
      (2022 <=? car_model_year r)%Z && Num.Qltb 10000 (total_loss r)
  | young_driver_extreme => (age r <? 25)%Z && Num.Qltb 15000 (total_loss r)
  | premium_loss_mismatch =>
      ge_cutoff (total_loss r) (loss_p95 cs)
      && le_cutoff (annual_premium r) (premium_p25 cs)
  end.

(** The rules in evaluation order. *)
Definition all_rules : list Rule :=
  [extreme_loss_ratio; statistical_outlier; new_car_high_loss;
   young_driver_extreme; premium_loss_mismatch].

(** The rules that hold for a record, in evaluation order. *)
Definition triggered_rules (cs : list PolicyRecord) (r : PolicyRecord) : list Rule :=
  filter (fun rule => rule_holds cs rule r) all_rules.

(** The sum of the weights of the rules that hold for a record. *)
Definition score_sum (cs : list PolicyRecord) (r : PolicyRecord) : Z :=
  fold_right (fun rule acc => (score (RULE_DEFINITIONS rule) + acc)%Z) 0%Z
             (triggered_rules cs r).

(** The identifiers of the rules that hold, joined by commas. *)
Definition joined_flags (cs : list PolicyRecord) (r : PolicyRecord) : string :=
  String.concat "," (map rule_name (triggered_rules cs r)).

(** How many records of the claim subset a rule holds for. *)
Definition trigger_count (cs : list PolicyRecord) (rule : Rule) : nat :=
  List.length (filter (rule_holds cs rule) cs).

(** The frame of assessments the rule table assigns to a dataset. *)
Definition assessed (d : DataFrame) : DataFrame :=
  let cs := claim_subset d in
  {| rows := cs;
     risk_score := Some (map (score_sum cs) cs);
     flags := Some (map (joined_flags cs) cs);
     age_group := None;
     outlier_threshold := None |}.

Definition counted (d : DataFrame) : FlagCounts :=
  map (fun rule => (rule, trigger_count (claim_subset d) rule)) all_rules.

(** The bands that hold at least one claim record, in category order. *)
Definition observed_bands (cs : list PolicyRecord) : list AgeBand :=
  filter (fun b => existsb (in_band b) cs) labels.

Definition computed_thresholds (d : DataFrame) : Thresholds :=
  let cs := claim_subset d in
  {| loss_95_threshold := loss_p95 cs;
     premium_25_threshold := premium_p25 cs;
     age_group_thresholds := map (fun b => (b, band_threshold cs b)) (observed_bands cs) |}.

(** The [threshold] column of [group_stats] over the claim records [cs], as
    the engine builds it from the groups of the given categories. *)
Definition threshold_series (cs : list PolicyRecord) (cats : list AgeBand)
  : list (AgeBand * option Num.Threshold) :=
  map (fun g => (fst g, threshold_of (snd g)))
      (map (fun g => (fst g, (Num.mean (snd g), Num.var (snd g))))
           (Pd.groupby cats (map band cs) (map total_loss cs))).

(** The sum of a column of integers. *)
Definition Zsum (l : list Z) : Z := fold_right Z.add 0%Z l.

(** The last character of a string. *)
Fixpoint last_char (s : string) : option ascii :=
  match s with
  | EmptyString => None
  | String a EmptyString => Some a
  | String _ t => last_char t
  end.

(** ** The flagged view *)

(** [claims[claims["risk_score"] > 0]], the frame both [save_flagged_csv] and
    [generate_html_report] sort. *)
Definition flagged (claims : DataFrame) : Py.exn + DataFrame :=
  match column "risk_score" (risk_score claims) with
  | inl e => inl e
  | inr scores => inr (Pd.getitem_mask (map (fun s => (0 <? s)%Z) scores) claims)
  end.

(** The rows of a frame at the given positions, in that order. *)
Definition take_rows (positions : list nat) (d : DataFrame) : list PolicyRecord :=
  flat_map (fun i => match nth_error (rows d) i with
                     | Some r => [r]
                     | None => []
                     end) positions.

Definition take_scores (positions : list nat) (scores : list Z) : list Z :=
  flat_map (fun i => match nth_error scores i with
                     | Some s => [s]
                     | None => []
                     end) positions.

(** ** Sample datasets *)

(** A frame as [load_data] returns it: the dataset columns alone. *)
Definition frame_of (l : list PolicyRecord) : DataFrame :=
  {| rows := l; risk_score := None; flags := None; age_group := None;
     outlier_threshold := None |}.

Module Sample.

(** The three claim records of the end-to-end scenario, and a policy
    without a claim. *)
Definition ratio16 : PolicyRecord :=
  {| customer_id := 1; gender := Male; age := 40; car_model_year := 2010;
     annual_premium := 1000; total_loss := 16000; loss_ratio := 16 |}.

Definition young : PolicyRecord :=
  {| customer_id := 2; gender := Male; age := 22; car_model_year := 2010;
     annual_premium := 900; total_loss := 16000; loss_ratio := 17.7778 |}.

Definition new_car : PolicyRecord :=
  {| customer_id := 3; gender := Female; age := 40; car_model_year := 2023;
     annual_premium := 1200; total_loss := 10500; loss_ratio := 8.75 |}.

Definition no_claim : PolicyRecord :=
  {| customer_id := 4; gender := Female; age := 51; car_model_year := 2015;
     annual_premium := 1100; total_loss := 0; loss_ratio := 0 |}.

Definition scenario : DataFrame := frame_of [ratio16; no_claim; young; new_car].

(** The same dataset in another order. *)
Definition reordered : DataFrame := frame_of [new_car; young; no_claim; ratio16].

(** A claim whose stored ratio is the generator's rounding of a quotient
    just above 15. *)
Definition rounded : PolicyRecord :=
  {| customer_id := 5; gender := Male; age := 40; car_model_year := 2010;
     annual_premium := 1000; total_loss := 15000.03;
     loss_ratio := MockData.loss_ratio 1000 15000.03 |}.

(** Claims with a premium of zero: one with a stored ratio above 15, one
    with the ratio the generator stores. *)
Definition free_ratio20 : PolicyRecord :=
  {| customer_id := 6; gender := Female; age := 40; car_model_year := 2010;
     annual_premium := 0; total_loss := 100; loss_ratio := 20 |}.

Definition free_generated : PolicyRecord :=
  {| customer_id := 7; gender := Female; age := 40; car_model_year := 2010;
     annual_premium := 0; total_loss := 100;
     loss_ratio := MockData.loss_ratio 0 100 |}.

(** A claimant aged 200. *)
Definition aged200 : PolicyRecord :=
  {| customer_id := 8; gender := Male; age := 200; car_model_year := 2010;
     annual_premium := 1000; total_loss := 500; loss_ratio := 0.5 |}.

(** Eleven small claims of young drivers and one large claim among them. *)
Definition small (id : Z) : PolicyRecord :=
  {| customer_id := id; gender := Female; age := 23; car_model_year := 2012;
     annual_premium := 1000; total_loss := 100; loss_ratio := 0.1 |}.

Definition large : PolicyRecord :=
  {| customer_id := 112; gender := Male; age := 22; car_model_year := 2023;
     annual_premium := 500; total_loss := 20000; loss_ratio := 40 |}.

Definition skewed : DataFrame :=
  frame_of (map small [101; 102; 103; 104; 105; 106; 107; 108; 109; 110; 111]%Z
            ++ [large])%list.

End Sample.

(** Further sample datasets. *)
Module Cases.

(** Ten small claims of young drivers and one large claim among them. *)
Definition eleven : DataFrame :=
  frame_of (map Sample.small [101; 102; 103; 104; 105; 106; 107; 108; 109; 110]%Z
            ++ [Sample.large])%list.


End Cases.

(** ** The console summary: [print_summary] *)

Module Series.

(** [s.value_counts()]: each distinct value with the number of its
    occurrences.  pandas lists them by descending count; the only use here
    sorts them by index at once. *)
Definition value_counts (s : list Z) : list (Z * nat) :=
  map (fun v => (v, count_occ Z.eq_dec s v)) (nodup Z.eq_dec s).

Fixpoint insert_by_index (e : Z * nat) (h : list (Z * nat)) : list (Z * nat) :=
  match h with
  | [] => [e]
  | e' :: t => if (fst e <=? fst e')%Z then e :: h else e' :: insert_by_index e t
  end.

(** [s.sort_index()] *)
Definition sort_index (h : list (Z * nat)) : list (Z * nat) :=
  fold_right insert_by_index [] h.

(** The order of the index. *)
Definition by_index (a b : Z * nat) : Prop := (fst a <= fst b)%Z.

End Series.

Module Str.

(** [c * n] *)
Fixpoint times (c : ascii) (n : nat) : string :=
  match n with
  | O => EmptyString
  | S k => String c (times c k)
  end.

(** The format [{s:<w}]: spaces after [s] up to the width [w]. *)
Definition ljust (w : nat) (s : string) : string :=
  (s ++ times " "%char (w - String.length s))%string.

(** The format [{s:>w}]: spaces before [s] up to the width [w]. *)
Definition rjust (w : nat) (s : string) : string :=
  (times " "%char (w - String.length s) ++ s)%string.

Definition of_nat (n : nat) : string := NilEmpty.string_of_uint (Nat.to_uint n).

Definition of_Z (z : Z) : string := NilZero.string_of_int (Z.to_int z).

(** [s.split(sep)] for a single character. *)
Fixpoint split (sep : ascii) (s : string) : list string :=
  match s with
  | EmptyString => [EmptyString]
  | String c t =>
      if Ascii.eqb c sep then EmptyString :: split sep t
      else match split sep t with
           | h :: r => String c h :: r
           | [] => [String c EmptyString]
           end
  end.

End Str.

(** Statements of the script outside the engine: they may also divide by
    zero. *)
Module Script.

Inductive exn := Raised (e : Py.exn) | ZeroDivisionError.

Definition M (A : Type) : Type := Py.World -> (exn + A) * Py.World.

Definition ret {A} (a : A) : M A := fun w => (inr a, w).

Definition bind {A B} (m : M A) (k : A -> M B) : M B :=
  fun w => match m w with
           | (inr a, w') => k a w'
           | (inl e, w') => (inl e, w')
           end.

(** A statement of the engine's kind. *)
Definition lift {A} (m : Py.M A) : M A :=
  fun w => match m w with
           | (inr a, w') => (inr a, w')
           | (inl e, w') => (inl (Raised e), w')
           end.

(** [a / b] on integers. *)
Definition true_div (a b : nat) : M Q :=
  fun w => match b with
           | O => (inl ZeroDivisionError, w)
           | _ => (inr (inject_Z (Z.of_nat a) / inject_Z (Z.of_nat b)), w)
           end.

(** [for x in l: body(x)] *)
Fixpoint for_each {A} (l : list A) (body : A -> M unit) : M unit :=
  match l with
  | [] => ret tt
  | x :: t => bind (body x) (fun _ => for_each t body)
  end.

(** The world after a sequence of lines is printed. *)
Definition emit_all (lines : list string) (w : Py.World) : Py.World :=
  fold_left (fun w' s => Py.emit s w') lines w.

End Script.

Declare Scope script_scope.
Delimit Scope script_scope with script.
Notation "x <- m ;; k" := (Script.bind m (fun x => k))
  (at level 100, m at next level, right associativity) : script_scope.
Notation "m ;;; k" := (Script.bind m (fun _ => k))
  (at level 100, right associativity) : script_scope.

Section Summary.

(** The text of a float under the formats [.1f] and [,.2f], left to the
    Python runtime; the second also for NaN and for a band threshold. *)
Variable fixed1 : Q -> string.
Variable money : option Q -> string.
Variable money_threshold : option Num.Threshold -> string.

Definition rule_line (c : ascii) : string := Str.times c 62.

(** [flagged["risk_score"].value_counts().sort_index()] *)
Definition score_distribution (f : DataFrame) : Py.exn + list (Z * nat) :=
  match column "risk_score" (risk_score f) with
  | inl e => inl e
  | inr scores => inr (Series.sort_index (Series.value_counts scores))
  end.

Definition len (d : DataFrame) : Py.exn + nat := inr (List.length (rows d)).

Local Open Scope script_scope.

Definition print_summary (total_records : nat) (claims : Py.ref)
           (flag_counts : FlagCounts) (thresholds : Thresholds) : Script.M unit :=
  selected <- Script.lift (Py.inspect claims flagged) ;;
  flagged <- Script.lift (Py.new selected) ;;
  score_dist <- Script.lift (Py.inspect flagged score_distribution) ;;
  Script.lift (Py.print (rule_line "="%char)) ;;;
  Script.lift (Py.print "  AUTO INSURANCE FRAUD / ANOMALY DETECTION — SUMMARY") ;;;
  Script.lift (Py.print (rule_line "="%char)) ;;;
  Script.lift (Py.print ("  Total records in dataset      : "
                          ++ Fmt.thousands total_records)) ;;;
  n_claims <- Script.lift (Py.inspect claims len) ;;
  Script.lift (Py.print ("  Total claims analysed          : "
                          ++ Fmt.thousands n_claims)) ;;;
  n_flagged <- Script.lift (Py.inspect flagged len) ;;
  Script.lift (Py.print ("  Unique customers flagged       : "
                          ++ Fmt.thousands n_flagged)) ;;;
  n_flagged <- Script.lift (Py.inspect flagged len) ;;
  n_claims <- Script.lift (Py.inspect claims len) ;;
  rate <- Script.true_div n_flagged n_claims ;;
  Script.lift (Py.print ("  Flag rate                      : "
                          ++ fixed1 (rate * 100) ++ "%")) ;;;
  Script.lift (Py.print (rule_line "-"%char)) ;;;
  Script.lift (Py.print "  FLAGS BY RULE") ;;;
  Script.lift (Py.print (rule_line "-"%char)) ;;;
  Script.for_each flag_counts
    (fun item =>
       let label := label (RULE_DEFINITIONS (fst item)) in
       Script.lift (Py.print ("    " ++ Str.ljust 52 label ++ " "
                               ++ Str.rjust 5 (Str.of_nat (snd item))))) ;;;
  Script.lift (Py.print (rule_line "-"%char)) ;;;
  Script.lift (Py.print "  RISK SCORE DISTRIBUTION (flagged customers only)") ;;;
  Script.lift (Py.print (rule_line "-"%char)) ;;;
  Script.for_each score_dist
    (fun item =>
       let bar := Str.times "#"%char (Nat.min (snd item) 60) in
       Script.lift (Py.print ("    Score " ++ Str.rjust 2 (Str.of_Z (fst item)) ++ ": "
                               ++ Str.rjust 5 (Str.of_nat (snd item)) ++ "  " ++ bar))) ;;;
  Script.lift (Py.print (rule_line "-"%char)) ;;;
  Script.lift (Py.print "  Computed thresholds:") ;;;
  Script.lift (Py.print ("    Loss top-5% cutoff           : $"
                          ++ money (loss_95_threshold thresholds))) ;;;
  Script.lift (Py.print ("    Premium bottom-25% cutoff    : $"
                          ++ money (premium_25_threshold thresholds))) ;;;
  Script.for_each (age_group_thresholds thresholds)
    (fun item =>
       Script.lift (Py.print ("    Age group " ++ Str.ljust 8 (AgeBand_label (fst item))
                               ++ " outlier   : $" ++ money_threshold (snd item)))) ;;;
  Script.lift (Py.print (rule_line "="%char)).

(** [main] from the call of the engine to the end of the summary, the
    dataset already loaded behind [df]. *)
Definition analyse_and_summarise (df : Py.ref) : Script.M unit :=
  total <- Script.lift (Py.inspect df len) ;;
  result <- Script.lift (apply_rules df) ;;
  print_summary total (fst (fst result)) (snd (fst result)) (snd result).

Local Close Scope script_scope.

End Summary.

(** ** The report table: [risk_color] and the display of flags *)

Definition risk_color (score : Z) : string :=
  if (7 <=? score)%Z then "#EF4444"
  else if (5 <=? score)%Z then "#F59E0B"
  else "#EAB308".

(** [f in RULE_DEFINITIONS], with the key found. *)
Definition rule_of_name (f : string) : option Rule :=
  find (fun rule => String.eqb (rule_name rule) f) all_rules.

(** [", ".join(RULE_DEFINITIONS[f]["label"] for f in row["flags"].split(",")
    if f in RULE_DEFINITIONS)] *)
Definition flags_display (row_flags : string) : string :=
  String.concat ", "
    (map (fun rule => label (RULE_DEFINITIONS rule))
         (flat_map (fun f => match rule_of_name f with
                             | Some rule => [rule]
                             | None => []
                             end)
                   (Str.split ","%char row_flags))).

(** A stand-in for the text of a float, for the examples: the fraction
    itself. *)
Module Render.

Definition fraction (x : Q) : string :=
  (Str.of_Z (Qnum x) ++ "/" ++ Str.of_nat (Pos.to_nat (Qden x)))%string.

Definition float (x : option Q) : string :=
  match x with
  | Some x => fraction x
  | None => "nan"
  end.

Definition threshold (t : option Num.Threshold) : string :=
  match t with
  | Some t => (fraction (Num.thr_mean t) ++ "+3*sqrt(" ++ fraction (Num.thr_var t) ++ ")")%string
  | None => "nan"
  end.

End Render.

(** ** The mock-data generator, one record at a time *)

Module Generator.

(** [np.maximum], [np.minimum] and [np.clip(x, lo, hi)]. *)
Definition maximum (x y : Q) : Q := if Num.Qltb x y then y else x.
Definition minimum (x y : Q) : Q := if Num.Qltb y x then y else x.
Definition clip (x lo hi : Q) : Q := minimum (maximum x lo) hi.

(** [x.round(2)] *)
Definition round2 (x : Q) : Q := inject_Z (MockData.round_half_even (x * 100)) / 100.

(** [x.astype(int)]: truncation towards zero. *)
Definition astype_int (x : Q) : Z := Z.quot (Qnum x) (Zpos (Qden x)).

(** What the random number generator draws for one record. *)
Record Draws := {
  normal_age : Q;
  gender_choice : Gender;
  year_choice : Z;
  noise : Q;
  claim_drawn : bool;
  lognormal_amount : Q
}.

Definition age_of (x : Draws) : Z := astype_int (clip (normal_age x) 18 75).

Definition car_age (x : Draws) : Z := (2025 - year_choice x)%Z.

Definition base_premium : Q := 1200.

Definition age_factor (a : Z) : Q :=
  if (a <? 25)%Z then 1.45
  else if (a <? 30)%Z then 1.15
  else if (a <? 60)%Z then 1.0
  else if (a <? 70)%Z then 1.10
  else 1.25.

Definition gender_factor (g : Gender) : Q :=
  match g with
  | Male => 1.08
  | Female => 1.0
  end.

Definition car_age_factor (x : Draws) : Q := 1.0 + inject_Z (car_age x) * 0.012.

Definition annual_premium_of (x : Draws) : Q :=
  round2 (clip (base_premium * age_factor (age_of x) * gender_factor (gender_choice x)
                * car_age_factor x * noise x) 500 5000).

Definition claim_base_prob : Q := 0.28.

Definition age_claim_adj (a : Z) : Q :=
  if (a <? 25)%Z then 0.15
  else if (a <? 30)%Z then 0.05
  else if (a <? 60)%Z then 0.0
  else if (a <? 70)%Z then 0.05
  else 0.10.

Definition car_claim_adj (x : Draws) : Q := inject_Z (car_age x) * 0.005.

Definition claim_prob (x : Draws) : Q :=
  clip (claim_base_prob + age_claim_adj (age_of x) + car_claim_adj x) 0.05 0.70.

Definition claim_amount (x : Draws) : Q :=
  if claim_drawn x then lognormal_amount x else 0.0.

Definition total_loss_of (x : Draws) : Q := round2 (clip (claim_amount x) 0 80000).

(** The row of the DataFrame for the draws of one record. *)
Definition row (id : Z) (x : Draws) : PolicyRecord :=
  {| customer_id := id;
     gender := gender_choice x;
     age := age_of x;
     car_model_year := year_choice x;
     annual_premium := annual_premium_of x;
     total_loss := total_loss_of x;
     loss_ratio := MockData.loss_ratio (annual_premium_of x) (total_loss_of x) |}.

(** Draws for the examples. *)
Definition sample : Draws :=
  {| normal_age := 16.3; gender_choice := Male; year_choice := 2003;
     noise := 1.07; claim_drawn := true; lognormal_amount := 40000.127 |}.

End Generator.

(** ** The dashboard data and its readers *)

(** A row of [dashboard_data.json]:
    [[id, gender (1 = Male, 0 = Female), age, car_year, premium, loss]]. *)
Definition RawRow : Type := (Z * Z * Z * Z * Q * Q)%type.


(** The pre-aggregation of [data_chatbot.py]. *)
Module Chatbot.


(** [sorted(records, key=lambda r: r["loss"], reverse=True)]: Python's sort
    is stable, also in reverse, so the result is unique: descending keys,
    equal keys in their original order. *)
Fixpoint insert_desc (x : PolicyRecord) (l : list PolicyRecord) : list PolicyRecord :=
  match l with
  | [] => [x]
  | y :: t => if Qle_bool (total_loss y) (total_loss x) then x :: l
              else y :: insert_desc x t
  end.

Definition sorted_by_loss_desc (records : list PolicyRecord) : list PolicyRecord :=
  fold_right insert_desc [] records.

(** [top_claims = sorted(...)[:20]] *)
Definition top_claims (records : list PolicyRecord) : list PolicyRecord :=
  firstn 20 (sorted_by_loss_desc records).

End Chatbot.

(** The aggregation of [create_pdf_report.py]. *)
Module Report.

Record Policy := {
  id : Z;
  gender : Gender;
  age : Z;
  car_year : Z;
  premium : Q;
  loss : Q
}.

Definition parse (raw : RawRow) : Policy :=
  let '(r0, r1, r2, r3, r4, r5) := raw in
  {| id := r0;
     gender := if (r1 =? 1)%Z then Male else Female;
     age := r2; car_year := r3; premium := r4; loss := r5 |}.

Definition age_group (a : Z) : string :=
  if (a <? 25)%Z then "18-24"
  else if (a <? 35)%Z then "25-34"
  else if (a <? 45)%Z then "35-44"
  else if (a <? 55)%Z then "45-54"
  else if (a <? 65)%Z then "55-64"
  else "65+".

Definition car_era (y : Z) : string :=
  if (y <? 2005)%Z then "2000-04"
  else if (y <? 2010)%Z then "2005-09"
  else if (y <? 2015)%Z then "2010-14"
  else if (y <? 2020)%Z then "2015-19"
  else "2020-25".

Definition AGE_GROUPS : list string :=
  ["18-24"; "25-34"; "35-44"; "45-54"; "55-64"; "65+"]%string.

Definition CAR_ERAS : list string :=
  ["2000-04"; "2005-09"; "2010-14"; "2015-19"; "2020-25"]%string.

(** [a / b]: Python raises on a zero divisor, for floats too. *)
Definition div (a b : Q) : Script.exn + Q :=
  if Qeq_bool b 0 then inl Script.ZeroDivisionError else inr (a / b).

Definition of_nat (n : nat) : Q := inject_Z (Z.of_nat n).

(** [sum(r[key] for r in rows)] and [sum(1 for r in rows if r['loss'] > 0)]. *)
Definition total (key : Policy -> Q) (rows : list Policy) : Q :=
  Num.Qsum (map key rows).

Definition count_claims (rows : list Policy) : nat :=
  List.length (filter (fun r => Num.Qltb 0 (loss r)) rows).

Record Kpis := {
  total_policies : nat;
  total_premium : Q;
  total_loss : Q;
  claims_count : nat;
  loss_ratio : Q;
  claims_freq : Q;
  avg_premium : Q;
  avg_loss_per_claim : Q
}.

Record AgeStats := {
  age_count : nat; age_premium : Q; age_loss : Q; age_claims : nat;
  age_avg_premium : Q; age_loss_ratio : Q; age_claims_freq : Q;
  age_avg_loss_per_claim : Q
}.

Record EraStats := {
  era_count : nat; era_premium : Q; era_loss : Q;
  era_loss_ratio : Q; era_claims_freq : Q
}.

Record GenderStats := {
  gender_count : nat; gender_premium : Q; gender_loss : Q;
  gender_avg_premium : Q; gender_loss_ratio : Q; gender_claims_freq : Q
}.

(** [x / y if y else 0] *)
Definition ratio_or_zero (x y : Q) : Q := if Qeq_bool y 0 then 0 else x / y.

Definition kpis (data : list Policy) : Script.exn + Kpis :=
  let total_policies := List.length data in
  let total_premium := total premium data in
  let total_loss := total loss data in
  let claims_count := count_claims data in
  match div total_loss total_premium with
  | inl e => inl e
  | inr loss_ratio =>
      match div (of_nat claims_count) (of_nat total_policies) with
      | inl e => inl e
      | inr claims_freq =>
          match div total_premium (of_nat total_policies) with
          | inl e => inl e
          | inr avg_premium =>
              inr {| total_policies := total_policies;
                     total_premium := total_premium;
                     total_loss := total_loss;
                     claims_count := claims_count;
                     loss_ratio := loss_ratio;
                     claims_freq := claims_freq;
                     avg_premium := avg_premium;
                     avg_loss_per_claim :=
                       if (0 <? claims_count)%nat
                       then total_loss / of_nat claims_count else 0 |}
          end
      end
  end.

Definition age_stats (data : list Policy) (ag : string) : AgeStats :=
  let rows := filter (fun d => String.eqb (age_group (age d)) ag) data in
  let prem := total premium rows in
  let loss := total loss rows in
  let claims := count_claims rows in
  let n := of_nat (List.length rows) in
  {| age_count := List.length rows; age_premium := prem; age_loss := loss;
     age_claims := claims;
     age_avg_premium := match rows with [] => 0 | _ => prem / n end;
     age_loss_ratio := ratio_or_zero loss prem;
     age_claims_freq := match rows with [] => 0 | _ => of_nat claims / n end;
     age_avg_loss_per_claim :=
       if (0 <? claims)%nat then loss / of_nat claims else 0 |}.

Definition era_stats (data : list Policy) (era : string) : EraStats :=
  let rows := filter (fun d => String.eqb (car_era (car_year d)) era) data in
  let prem := total premium rows in
  let loss := total loss rows in
  let claims := count_claims rows in
  {| era_count := List.length rows; era_premium := prem; era_loss := loss;
     era_loss_ratio := ratio_or_zero loss prem;
     era_claims_freq := match rows with
                        | [] => 0
                        | _ => of_nat claims / of_nat (List.length rows)
                        end |}.

Definition Gender_eqb (a b : Gender) : bool :=
  match a, b with
  | Male, Male | Female, Female => true
  | _, _ => false
  end.

Definition gender_stats (data : list Policy) (g : Gender) : Script.exn + GenderStats :=
  let rows := filter (fun d => Gender_eqb (gender d) g) data in
  let prem := total premium rows in
  let loss := total loss rows in
  let claims := count_claims rows in
  match div prem (of_nat (List.length rows)) with
  | inl e => inl e
  | inr avg =>
      let lr := ratio_or_zero loss prem in
      match div (of_nat claims) (of_nat (List.length rows)) with
      | inl e => inl e
      | inr freq =>
          inr {| gender_count := List.length rows; gender_premium := prem;
                 gender_loss := loss; gender_avg_premium := avg;
                 gender_loss_ratio := lr; gender_claims_freq := freq |}
      end
  end.

(** The overall figures and the breakdowns by age group, car era and
    gender, in the order the script computes them. *)
Record Aggregates := {
  overall : Kpis;
  by_age : list (string * AgeStats);
  by_era : list (string * EraStats);
  by_gender : list (Gender * GenderStats)
}.

Definition aggregate (data : list Policy) : Script.exn + Aggregates :=
  match kpis data with
  | inl e => inl e
  | inr k =>
      let by_age := map (fun ag => (ag, age_stats data ag)) AGE_GROUPS in
      let by_era := map (fun era => (era, era_stats data era)) CAR_ERAS in
      match gender_stats data Male with
      | inl e => inl e
      | inr m =>
          match gender_stats data Female with
          | inl e => inl e
          | inr f =>
              inr {| overall := k; by_age := by_age; by_era := by_era;
                     by_gender := [(Male, m); (Female, f)] |}
          end
      end
  end.

(** Two policies for the examples. *)
Definition sample : list Policy :=
  [parse (1%Z, 1%Z, 22%Z, 2003%Z, 900, 16000);
   parse (2%Z, 0%Z, 67%Z, 2021%Z, 1200, 0)].

End Report.

(** * Properties *)

(** ** Columns as maps over the rows *)

Lemma append_empty_r (s : string) : (s ++ EmptyString)%string = s.
Proof. induction s as [|a t IH]; simpl; [reflexivity|]. now rewrite IH. Qed.

Section Columns.

Context {A : Type}.
Variable l : list A.

Lemma select_map_filter (p : A -> bool) :
  Pd.select (map p l) l = filter p l.
Proof.
  induction l as [|x t IH]; simpl; [reflexivity|].
  destruct (p x); now rewrite IH.
Qed.

Lemma select_map_map {B} (p : A -> bool) (f : A -> B) :
  Pd.select (map p l) (map f l) = map f (filter p l).
Proof.
  induction l as [|x t IH]; simpl; [reflexivity|].
  destruct (p x); simpl; now rewrite IH.
Qed.

Lemma repeat_length_map {B} (b : B) :
  repeat b (List.length l) = map (fun _ => b) l.
Proof.
  induction l as [|x t IH]; simpl; [reflexivity|]. now rewrite IH.
Qed.

Lemma add_where_map (p : A -> bool) (v : Z) (f : A -> Z) :
  Pd.add_where (map p l) v (map f l)
  = map (fun r => (f r + if p r then v else 0)%Z) l.
Proof.
  induction l as [|x t IH]; simpl; [reflexivity|]. rewrite IH.
  destruct (p x); [reflexivity|]. now rewrite Z.add_0_r.
Qed.

Lemma append_where_map (p : A -> bool) (s : string) (f : A -> string) :
  Pd.append_where (map p l) s (map f l)
  = map (fun r => (f r ++ if p r then s else EmptyString)%string) l.
Proof.
  induction l as [|x t IH]; simpl; [reflexivity|]. rewrite IH.
  destruct (p x); [reflexivity|]. now rewrite append_empty_r.
Qed.

Lemma gt_columns_map (f : A -> Q) (g : A -> option Num.Threshold) :
  gt_columns (map f l) (map g l) = map (fun r => Num.gt_threshold (f r) (g r)) l.
Proof.
  induction l as [|x t IH]; simpl; [reflexivity|]. now rewrite IH.
Qed.

Lemma mask_sum_map (p : A -> bool) :
  Pd.mask_sum (map p l) = List.length (filter p l).
Proof.
  unfold Pd.mask_sum.
  induction l as [|x t IH]; simpl; [reflexivity|].
  destruct (p x); simpl; now rewrite IH.
Qed.

End Columns.

(** ** Age bands and the per-band statistics *)

Lemma AgeBand_eqb_eq (a b : AgeBand) : AgeBand_eqb a b = true <-> a = b.
Proof. destruct a, b; simpl; split; intro H; congruence. Qed.

Lemma AgeBand_eqb_refl (b : AgeBand) : AgeBand_eqb b b = true.
Proof. now destruct b. Qed.

Lemma labels_complete (b : AgeBand) : existsb (AgeBand_eqb b) labels = true.
Proof. now destruct b. Qed.

Lemma group_values_band (cs : list PolicyRecord) (b : AgeBand) :
  Pd.group_values b (map band cs) (map total_loss cs) = band_losses cs b.
Proof.
  unfold Pd.group_values, band_losses. rewrite map_map.
  apply (select_map_map cs (fun r => match band r with
                                     | Some k => AgeBand_eqb k b
                                     | None => false
                                     end) total_loss).
Qed.

Lemma band_losses_nil (cs : list PolicyRecord) (b : AgeBand) :
  band_losses cs b = [] <-> existsb (in_band b) cs = false.
Proof.
  unfold band_losses.
  induction cs as [|r t IH]; simpl; [tauto|].
  destruct (in_band b r); simpl; [split; discriminate | exact IH].
Qed.

Section GroupStats.

Variable cs : list PolicyRecord.

Lemma threshold_series_cons (a : AgeBand) (cats : list AgeBand) :
  threshold_series cs (a :: cats)
  = ((if existsb (in_band a) cs then [(a, band_threshold cs a)] else [])
       ++ threshold_series cs cats)%list.
Proof.
  unfold threshold_series, Pd.groupby. simpl flat_map.
  rewrite !map_app. f_equal.
  rewrite group_values_band.
  destruct (existsb (in_band a) cs) eqn:E.
  - unfold band_threshold.
    destruct (band_losses cs a) eqn:L; [|reflexivity].
    apply band_losses_nil in L. congruence.
  - apply band_losses_nil in E. now rewrite E.
Qed.

Lemma threshold_series_observed (cats : list AgeBand) :
  threshold_series cs cats
  = map (fun b => (b, band_threshold cs b))
        (filter (fun b => existsb (in_band b) cs) cats).
Proof.
  induction cats as [|a t IH]; [reflexivity|].
  rewrite threshold_series_cons, IH. simpl.
  now destruct (existsb (in_band a) cs).
Qed.

Lemma band_threshold_unobserved (b : AgeBand) :
  existsb (in_band b) cs = false -> band_threshold cs b = None.
Proof.
  intro E. apply band_losses_nil in E.
  unfold band_threshold. now rewrite E.
Qed.

Lemma lookup_threshold_series (cats : list AgeBand) (b : AgeBand) :
  match Pd.lookup b (threshold_series cs cats) with
  | Some v => v
  | None => None
  end = if existsb (AgeBand_eqb b) cats then band_threshold cs b else None.
Proof.
  induction cats as [|a t IH]; [reflexivity|].
  rewrite threshold_series_cons. simpl existsb.
  destruct (AgeBand_eqb b a) eqn:Eba.
  - apply AgeBand_eqb_eq in Eba. subst a. simpl orb.
    destruct (existsb (in_band b) cs) eqn:E; simpl.
    + now rewrite AgeBand_eqb_refl.
    + rewrite IH, (band_threshold_unobserved b E).
      now destruct (existsb (AgeBand_eqb b) t).
  - simpl orb. destruct (existsb (in_band a) cs); simpl; [|exact IH].
    destruct (AgeBand_eqb a b) eqn:Eab; [|exact IH].
    apply AgeBand_eqb_eq in Eab. subst a.
    now rewrite AgeBand_eqb_refl in Eba.
Qed.

(** The column [outlier_threshold] assigns each record its band's
    threshold. *)
Lemma map_series_record_threshold :
  Pd.map_series (threshold_series cs labels) (map band cs)
  = map (record_threshold cs) cs.
Proof.
  unfold Pd.map_series. rewrite map_map.
  apply map_ext. intro r. unfold record_threshold.
  destruct (band r) as [b|]; [|reflexivity].
  now rewrite lookup_threshold_series, labels_complete.
Qed.

End GroupStats.

(** ** Running statements *)

Section Stepping.

Import Py.

Context {A B : Type}.

Lemma bind_new (d : DataFrame) (k : ref -> M B) (w : World) :
  bind (new d) k w = k (next w) (alloc d w).
Proof. reflexivity. Qed.

Lemma bind_print (s : string) (k : unit -> M B) (w : World) :
  bind (print s) k w = k tt (emit s w).
Proof. reflexivity. Qed.

Lemma bind_inspect (r : ref) (f : DataFrame -> exn + A) (k : A -> M B)
      (w : World) (d : DataFrame) (a : A) :
  heap w r = Some d -> f d = inr a -> bind (inspect r f) k w = k a w.
Proof. intros Hr Hf. unfold bind, inspect. now rewrite Hr, Hf. Qed.

Lemma bind_modify (r : ref) (f : DataFrame -> exn + DataFrame) (k : unit -> M B)
      (w : World) (d d' : DataFrame) :
  heap w r = Some d -> f d = inr d' -> bind (modify r f) k w = k tt (write r d' w).
Proof. intros Hr Hf. unfold bind, modify. now rewrite Hr, Hf. Qed.

End Stepping.

Lemma upd_same (r : Py.ref) (d : DataFrame) h : Py.upd r d h r = Some d.
Proof. unfold Py.upd. now rewrite Nat.eqb_refl. Qed.

Lemma upd_other (r r' : Py.ref) (d : DataFrame) h :
  r' <> r -> Py.upd r d h r' = h r'.
Proof. intro N. unfold Py.upd. apply Nat.eqb_neq in N. now rewrite N. Qed.

Lemma heap_write_same r d w : Py.heap (Py.write r d w) r = Some d.
Proof. apply upd_same. Qed.

Lemma heap_alloc_same d w : Py.heap (Py.alloc d w) (Py.next w) = Some d.
Proof. apply upd_same. Qed.

Ltac lookup :=
  first [ eassumption
        | apply heap_write_same
        | apply heap_alloc_same
        | cbn [Py.heap Py.next Py.alloc Py.write Py.emit]; apply upd_same ].

(** The value of one statement on the current frame, its columns brought to
    the form of a map over the rows. *)
Ltac eval_stmt Hrows :=
  cbv beta delta [loc_add_risk_score loc_append_flags group_stats_of
                  map_outlier_threshold outlier_mask rstrip_flags drop_helpers
                  column];
  cbn [rows risk_score flags age_group outlier_threshold
       set_risk_score set_flags set_age_group set_outlier_threshold];
  rewrite ?Hrows;
  rewrite ?repeat_length_map, ?add_where_map, ?append_where_map;
  reflexivity.

Ltac step Hrows :=
  first [ rewrite bind_new
        | rewrite bind_print
        | erewrite bind_inspect; [ | lookup | eval_stmt Hrows ]
        | erewrite bind_modify; [ | lookup | eval_stmt Hrows ] ].

(** ** One record: the accumulated score and flags *)

Section OneRecord.

Variable cs : list PolicyRecord.
Variable r : PolicyRecord.

Let weight (rule : Rule) : Z :=
  if rule_holds cs rule r then score (RULE_DEFINITIONS rule) else 0%Z.

Let flag (rule : Rule) : string :=
  if rule_holds cs rule r then (rule_name rule ++ ",")%string else EmptyString.

(** The five additions to [risk_score] amount to the sum of the weights of
    the rules that hold. *)
Lemma accumulated_score :
  (0 + weight extreme_loss_ratio + weight statistical_outlier
   + weight new_car_high_loss + weight young_driver_extreme
   + weight premium_loss_mismatch)%Z = score_sum cs r.
Proof.
  unfold weight, score_sum, triggered_rules. cbn [filter all_rules].
  destruct (rule_holds cs extreme_loss_ratio r),
           (rule_holds cs statistical_outlier r),
           (rule_holds cs new_car_high_loss r),
           (rule_holds cs young_driver_extreme r),
           (rule_holds cs premium_loss_mismatch r); reflexivity.
Qed.

(** The five appends to [flags], stripped of the trailing comma, are the
    comma-joined identifiers of the rules that hold. *)
Lemma accumulated_flags :
  Pd.rstrip ","%char
    (((((EmptyString ++ flag extreme_loss_ratio) ++ flag statistical_outlier)
        ++ flag new_car_high_loss) ++ flag young_driver_extreme)
      ++ flag premium_loss_mismatch)%string
  = joined_flags cs r.
Proof.
  unfold flag, joined_flags, triggered_rules. cbn [filter all_rules].
  destruct (rule_holds cs extreme_loss_ratio r),
           (rule_holds cs statistical_outlier r),
           (rule_holds cs new_car_high_loss r),
           (rule_holds cs young_driver_extreme r),
           (rule_holds cs premium_loss_mismatch r); reflexivity.
Qed.

End OneRecord.

(** ** The run of [apply_rules] *)

Lemma heap_write_other r r' d w :
  r' <> r -> Py.heap (Py.write r d w) r' = Py.heap w r'.
Proof. intro N. now apply upd_other. Qed.

(** On any world that holds the dataset behind [df], the engine returns
    normally; the frame it returns is a new object holding the assessments of
    the rule table; no other live object changes; one line is printed. *)
Lemma apply_rules_run (w : Py.World) (df : Py.ref) (d : DataFrame) :
  Py.heap w df = Some d ->
  exists w',
    apply_rules df w
    = (inr (S (Py.next w), counted d, computed_thresholds d), w')
    /\ Py.heap w' (S (Py.next w)) = Some (assessed d)
    /\ (forall r, r <> Py.next w -> r <> S (Py.next w) -> Py.heap w' r = Py.heap w r)
    /\ Py.stdout w'
       = (Py.stdout w ++ [claims_message (List.length (claim_subset d))])%list
    /\ Py.next w' = S (S (Py.next w)).
Proof.
  intro Hdf. unfold apply_rules.
  pose (sel := Pd.getitem_mask
                 (map (fun r : PolicyRecord => Num.Qltb 0 (total_loss r)) (rows d)) d).
  assert (Hsel : rows sel = claim_subset d) by apply select_map_filter.
  set (cs := claim_subset d) in *.
  eexists. split.
  - do 2 step Hsel. fold sel.
    do 5 step Hsel. cbn [Py.next Py.alloc].
    do 6 step Hsel.
    change (fun r => Pd.cut bins labels (age r)) with band.
    step Hsel.
    change (map _ (map _ (Pd.groupby labels (map band cs) (map total_loss cs))))
      with (threshold_series cs labels).
    step Hsel. rewrite map_series_record_threshold.
    step Hsel. rewrite gt_columns_map.
    do 15 step Hsel.
    unfold Py.ret. apply (f_equal2 pair); [|reflexivity].
    do 2 f_equal.
    + f_equal. unfold counted, all_rules.
      cbn [dict_set Rule_eqb map]. rewrite !mask_sum_map. reflexivity.
    + unfold computed_thresholds. rewrite threshold_series_observed. reflexivity.
  - split; [|split; [|split]].
    + rewrite heap_write_same. f_equal. unfold assessed. fold cs. f_equal.
      * f_equal. apply map_ext. intro r. apply (accumulated_score cs r).
      * f_equal. rewrite map_map. apply map_ext. intro r.
        apply (accumulated_flags cs r).
    + intros r N1 N2. rewrite !heap_write_other by exact N2.
      cbn [Py.heap Py.emit Py.alloc Py.next].
      rewrite upd_other by exact N2. now rewrite upd_other by exact N1.
    + reflexivity.
    + reflexivity.
Qed.

(** ** The engine on a loaded dataset *)

(** The engine never raises: on every dataset it returns the assessments,
    counts and thresholds of the rule table. *)
Lemma engine_assessed (d : DataFrame) :
  engine d = inr (assessed d, counted d, computed_thresholds d).
Proof.
  unfold engine.
  destruct (apply_rules_run (loaded d) 0%nat d (upd_same _ _ _))
    as (w' & Hrun & Hclaims & _).
  rewrite Hrun. cbn [Py.next loaded] in *. now rewrite Hclaims.
Qed.

(** The end-to-end scenario: three claims and a policy without a claim. *)
Example scenario_run :
  engine Sample.scenario
  = inr ({| rows := [Sample.ratio16; Sample.young; Sample.new_car];
            risk_score := Some [3; 6; 2]%Z;
            flags := Some ["extreme_loss_ratio"%string;
                           "extreme_loss_ratio,young_driver_extreme,premium_loss_mismatch"%string;
                           "new_car_high_loss"%string];
            age_group := None; outlier_threshold := None |},
         [(extreme_loss_ratio, 2%nat); (statistical_outlier, 0%nat);
          (new_car_high_loss, 1%nat); (young_driver_extreme, 1%nat);
          (premium_loss_mismatch, 1%nat)],
         computed_thresholds Sample.scenario).
Proof. rewrite engine_assessed. vm_compute. reflexivity. Qed.

Lemma rule_weights :
  map (fun rule => score (RULE_DEFINITIONS rule)) all_rules = [3; 2; 2; 2; 1]%Z.
Proof. reflexivity. Qed.

Lemma score_sum_range (cs : list PolicyRecord) (r : PolicyRecord) :
  (0 <= score_sum cs r <= 10)%Z.
Proof.
  unfold score_sum, triggered_rules. cbn [filter all_rules].
  destruct (rule_holds cs extreme_loss_ratio r),
           (rule_holds cs statistical_outlier r),
           (rule_holds cs new_car_high_loss r),
           (rule_holds cs young_driver_extreme r),
           (rule_holds cs premium_loss_mismatch r); cbn; lia.
Qed.

(** The score is the sum, over the whole table, of each rule's weight where
    its predicate holds and zero where it does not. *)
Lemma score_sum_additive (cs : list PolicyRecord) (r : PolicyRecord) :
  score_sum cs r
  = fold_right Z.add 0%Z
      (map (fun rule => if rule_holds cs rule r
                        then score (RULE_DEFINITIONS rule) else 0%Z) all_rules).
Proof.
  unfold score_sum, triggered_rules. cbn [filter all_rules map fold_right].
  destruct (rule_holds cs extreme_loss_ratio r),
           (rule_holds cs statistical_outlier r),
           (rule_holds cs new_car_high_loss r),
           (rule_holds cs young_driver_extreme r),
           (rule_holds cs premium_loss_mismatch r); reflexivity.
Qed.

(** C1.  On every dataset the engine returns one score per record of the
    claim subset, and the score of a record is the sum of the weights
    3, 2, 2, 2, 1 of exactly the rules of the table whose predicates hold for
    it: each rule contributes its weight or nothing, whatever the other rules
    do, the sum is not capped, and it lies between 0 and 10. *)
Theorem risk_score_is_sum_of_triggered_weights (d : DataFrame) :
  let cs := claim_subset d in
  exists c fc th,
    engine d = inr (c, fc, th)
    /\ rows c = cs
    /\ risk_score c = Some (map (score_sum cs) cs)
    /\ map (fun rule => score (RULE_DEFINITIONS rule)) all_rules = [3; 2; 2; 2; 1]%Z
    /\ forall r,
        score_sum cs r
        = fold_right Z.add 0%Z
            (map (fun rule => if rule_holds cs rule r
                              then score (RULE_DEFINITIONS rule) else 0%Z) all_rules)
        /\ (0 <= score_sum cs r <= 10)%Z.
Proof.
  intro cs. exists (assessed d), (counted d), (computed_thresholds d).
  split; [apply engine_assessed|].
  split; [reflexivity|]. split; [reflexivity|]. split; [apply rule_weights|].
  intro r. split; [apply score_sum_additive | apply score_sum_range].
Qed.

(** All five rules can hold for one record: its score is then 10. *)
Example all_rules_can_hold :
  engine Sample.skewed
  = inr (assessed Sample.skewed, counted Sample.skewed,
         computed_thresholds Sample.skewed)
  /\ In Sample.large (claim_subset Sample.skewed)
  /\ triggered_rules (claim_subset Sample.skewed) Sample.large = all_rules
  /\ score_sum (claim_subset Sample.skewed) Sample.large = 10%Z.
Proof.
  split; [apply engine_assessed|].
  split; [|split; vm_compute; reflexivity].
  vm_compute. do 11 right. now left.
Qed.

(** ** Flags *)

Section Flags.

Variable cs : list PolicyRecord.
Variable r : PolicyRecord.

Ltac by_cases :=
  unfold joined_flags, score_sum, triggered_rules; cbn [filter all_rules];
  destruct (rule_holds cs extreme_loss_ratio r),
           (rule_holds cs statistical_outlier r),
           (rule_holds cs new_car_high_loss r),
           (rule_holds cs young_driver_extreme r),
           (rule_holds cs premium_loss_mismatch r).

Lemma flags_nonempty_iff_scored :
  joined_flags cs r <> EmptyString <-> (0 < score_sum cs r)%Z.
Proof.
  by_cases; cbn; split; intro H; try discriminate; try lia;
    try (exfalso; now apply H).
Qed.

Lemma flags_no_trailing_comma :
  last_char (joined_flags cs r) <> Some ","%char.
Proof. by_cases; cbn; discriminate. Qed.

End Flags.

(** C10.  On every dataset the engine returns exactly the records of the
    claim subset, in dataset order, with one score and one flags entry for
    each; the flags entry of a record is the comma-joined list of the
    identifiers of the rules that hold for it, in evaluation order, without a
    trailing comma; and it is non-empty exactly when the score is positive. *)
Theorem flags_join_triggered_rules (d : DataFrame) :
  let cs := claim_subset d in
  exists c fc th scores fl,
    engine d = inr (c, fc, th)
    /\ rows c = filter (fun r => Num.Qltb 0 (total_loss r)) (rows d)
    /\ risk_score c = Some scores /\ flags c = Some fl
    /\ (forall i r, nth_error (rows c) i = Some r ->
                    nth_error scores i = Some (score_sum cs r)
                    /\ nth_error fl i = Some (joined_flags cs r))
    /\ List.length scores = List.length (rows c)
    /\ List.length fl = List.length (rows c)
    /\ forall r,
        joined_flags cs r
        = String.concat ","
            (map rule_name (filter (fun rule => rule_holds cs rule r) all_rules))
        /\ last_char (joined_flags cs r) <> Some ","%char
        /\ (joined_flags cs r <> EmptyString <-> (0 < score_sum cs r)%Z).
Proof.
  intro cs.
  exists (assessed d), (counted d), (computed_thresholds d),
         (map (score_sum cs) cs), (map (joined_flags cs) cs).
  split; [apply engine_assessed|].
  split; [reflexivity|]. split; [reflexivity|]. split; [reflexivity|].
  split.
  { intros i r Hi. cbn [rows assessed] in Hi. fold cs in Hi.
    split; rewrite nth_error_map, Hi; reflexivity. }
  split; [apply length_map|]. split; [apply length_map|].
  intro r. split; [reflexivity|].
  split; [apply flags_no_trailing_comma | apply flags_nonempty_iff_scored].
Qed.

(** ** Degenerate inputs *)

(** C5.  When no record of the dataset has a positive [total_loss], and so
    on the empty dataset too, the engine returns normally: no assessment,
    every trigger count zero, NaN for both percentile cutoffs and no
    threshold for any band. *)
Theorem empty_claim_subset_yields_undefined_thresholds (d : DataFrame) :
  claim_subset d = [] ->
  engine d
  = inr ({| rows := []; risk_score := Some []; flags := Some [];
            age_group := None; outlier_threshold := None |},
         map (fun rule => (rule, 0%nat)) all_rules,
         {| loss_95_threshold := None; premium_25_threshold := None;
            age_group_thresholds := [] |})
  /\ forall b th, engine d = inr th ->
       Pd.lookup b (age_group_thresholds (snd th)) = None.
Proof.
  intro Hcs.
  assert (E : engine d
    = inr ({| rows := []; risk_score := Some []; flags := Some [];
              age_group := None; outlier_threshold := None |},
           map (fun rule => (rule, 0%nat)) all_rules,
           {| loss_95_threshold := None; premium_25_threshold := None;
              age_group_thresholds := [] |})).
  { rewrite engine_assessed.
    unfold assessed, counted, computed_thresholds. rewrite Hcs. reflexivity. }
  split; [exact E|].
  intros b th Hth. rewrite E in Hth. injection Hth as <-. reflexivity.
Qed.

Lemma empty_claim_subset_witness :
  claim_subset (frame_of [Sample.no_claim]) = []
  /\ engine (frame_of [Sample.no_claim])
     = inr ({| rows := []; risk_score := Some []; flags := Some [];
               age_group := None; outlier_threshold := None |},
            map (fun rule => (rule, 0%nat)) all_rules,
            {| loss_95_threshold := None; premium_25_threshold := None;
               age_group_thresholds := [] |}).
Proof.
  split; [reflexivity|].
  apply (empty_claim_subset_yields_undefined_thresholds
           (frame_of [Sample.no_claim])).
  reflexivity.
Defined.

Lemma var_short (l : list Q) : (List.length l < 2)%nat -> Num.var l = None.
Proof.
  intro H. unfold Num.var. destruct (Num.mean l); [|reflexivity].
  apply Nat.ltb_lt in H. now rewrite H.
Qed.

Lemma threshold_of_nan_std (m : option Q) : threshold_of (m, None) = None.
Proof. now destruct m. Qed.

Lemma band_observed (cs : list PolicyRecord) (b : AgeBand) (r : PolicyRecord) :
  In r cs -> band r = Some b -> existsb (in_band b) cs = true.
Proof.
  intros Hin Hb. apply existsb_exists. exists r. split; [exact Hin|].
  unfold in_band. rewrite Hb. apply AgeBand_eqb_refl.
Qed.

Lemma lookup_graph {V} (f : AgeBand -> V) (l : list AgeBand) (b : AgeBand) :
  In b l -> Pd.lookup b (map (fun k => (k, f k)) l) = Some (f b).
Proof.
  induction l as [|a t IH]; [contradiction|].
  intro Hin. cbn [map Pd.lookup].
  destruct (AgeBand_eqb a b) eqn:E.
  - apply AgeBand_eqb_eq in E. now subst a.
  - apply IH. destruct Hin as [->|Hin]; [|exact Hin].
    now rewrite AgeBand_eqb_refl in E.
Qed.

Lemma lookup_observed (cs : list PolicyRecord) (b : AgeBand) :
  existsb (in_band b) cs = true ->
  Pd.lookup b (map (fun k => (k, band_threshold cs k)) (observed_bands cs))
  = Some (band_threshold cs b).
Proof.
  intro Hobs. apply lookup_graph. apply filter_In.
  split; [destruct b; simpl; tauto | exact Hobs].
Qed.

(** C6.  When the age band of a claim record holds fewer than two claim
    records, the engine returns normally, the band's threshold is NaN, and
    the record does not trigger [statistical_outlier], whatever its
    [total_loss]. *)
Theorem degenerate_band_never_triggers_outlier
        (d : DataFrame) (b : AgeBand) (r : PolicyRecord) :
  let cs := claim_subset d in
  In r cs ->
  band r = Some b ->
  (List.length (filter (in_band b) cs) < 2)%nat ->
  exists c fc th,
    engine d = inr (c, fc, th)
    /\ flags c = Some (map (joined_flags cs) cs)
    /\ risk_score c = Some (map (score_sum cs) cs)
    /\ Pd.lookup b (age_group_thresholds th) = Some None
    /\ rule_holds cs statistical_outlier r = false
    /\ ~ In statistical_outlier (triggered_rules cs r).
Proof.
  intros cs Hin Hb Hlen.
  assert (Hthr : band_threshold cs b = None).
  { unfold band_threshold. rewrite var_short; [apply threshold_of_nan_std|].
    unfold band_losses. now rewrite length_map. }
  assert (Hrule : rule_holds cs statistical_outlier r = false).
  { cbn [rule_holds]. unfold record_threshold. now rewrite Hb, Hthr. }
  exists (assessed d), (counted d), (computed_thresholds d).
  split; [apply engine_assessed|].
  split; [reflexivity|]. split; [reflexivity|].
  split; [|split; [exact Hrule|]].
  - cbn [computed_thresholds age_group_thresholds]. fold cs.
    rewrite <- Hthr. apply lookup_observed.
    apply (band_observed cs b r Hin Hb).
  - unfold triggered_rules. rewrite filter_In. intros [_ H]. congruence.
Qed.

Lemma degenerate_band_witness :
  exists c fc th,
    engine Sample.scenario = inr (c, fc, th)
    /\ flags c = Some (map (joined_flags (claim_subset Sample.scenario))
                           (claim_subset Sample.scenario))
    /\ risk_score c = Some (map (score_sum (claim_subset Sample.scenario))
                                (claim_subset Sample.scenario))
    /\ Pd.lookup under25 (age_group_thresholds th) = Some None
    /\ rule_holds (claim_subset Sample.scenario) statistical_outlier Sample.young = false
    /\ ~ In statistical_outlier
           (triggered_rules (claim_subset Sample.scenario) Sample.young).
Proof.
  apply (degenerate_band_never_triggers_outlier Sample.scenario under25 Sample.young).
  - vm_compute. right. now left.
  - reflexivity.
  - vm_compute. lia.
Defined.

(** ** Age bands *)

(** An age lies below the bins, in one of their six intervals, or above. *)
Lemma age_position (a : Z) :
  (a < 0 \/ 0 <= a < 25 \/ 25 <= a < 35 \/ 35 <= a < 45 \/ 45 <= a < 55
   \/ 55 <= a < 65 \/ 65 <= a < 200 \/ 200 <= a)%Z.
Proof. lia. Qed.

Ltac decide_ages :=
  repeat match goal with
         | |- context [(?x <=? ?y)%Z] =>
             first [ rewrite (proj2 (Z.leb_le x y)) by lia
                   | rewrite (proj2 (Z.leb_gt x y)) by lia ]
         | |- context [(?x <? ?y)%Z] =>
             first [ rewrite (proj2 (Z.ltb_lt x y)) by lia
                   | rewrite (proj2 (Z.ltb_ge x y)) by lia ]
         end.

(** The band of an age is the one whose right-open interval holds it. *)
Lemma cut_age_interval (a : Z) (b : AgeBand) :
  Pd.cut bins labels a = Some b
  <-> match b with
      | under25 => (0 <= a < 25)%Z
      | from25to34 => (25 <= a < 35)%Z
      | from35to44 => (35 <= a < 45)%Z
      | from45to54 => (45 <= a < 55)%Z
      | from55to64 => (55 <= a < 65)%Z
      | over65 => (65 <= a < 200)%Z
      end.
Proof.
  unfold bins, labels. cbn [Pd.cut].
  destruct (age_position a) as [P|[P|[P|[P|[P|[P|[P|P]]]]]]];
    decide_ages; cbn [andb]; destruct b; split; intro Hb;
    solve [ lia | congruence | reflexivity ].
Qed.

Lemma cut_age_outside (a : Z) :
  Pd.cut bins labels a = None <-> (a < 0 \/ 200 <= a)%Z.
Proof.
  unfold bins, labels. cbn [Pd.cut].
  destruct (age_position a) as [P|[P|[P|[P|[P|[P|[P|P]]]]]]];
    decide_ages; cbn [andb]; split; intro Hb; solve [ lia | congruence ].
Qed.

(** C8, as the engine has it.  A claim record whose age lies in 0..199 is
    assigned exactly one of the six bands, by right-open intervals: the band
    is [<25] for 0 <= age < 25, [25-34] for 25 <= age < 35, and so on up to
    [65+] for 65 <= age < 200 (so age 25 is in [25-34] and age 65 in [65+]); a
    record whose age is negative or at least 200 is assigned no band. *)
Theorem age_band_is_right_open_within_bins (r : PolicyRecord) :
  (forall b,
      band r = Some b
      <-> match b with
          | under25 => (0 <= age r < 25)%Z
          | from25to34 => (25 <= age r < 35)%Z
          | from35to44 => (35 <= age r < 45)%Z
          | from45to54 => (45 <= age r < 55)%Z
          | from55to64 => (55 <= age r < 65)%Z
          | over65 => (65 <= age r < 200)%Z
          end)
  /\ (band r = None <-> (age r < 0 \/ 200 <= age r)%Z)
  /\ ((0 <= age r < 200)%Z -> exists b, band r = Some b).
Proof.
  split; [intro b; apply cut_age_interval|].
  split; [apply cut_age_outside|].
  intro H. destruct (band r) as [b|] eqn:E; [now exists b|].
  apply cut_age_outside in E. lia.
Qed.

Lemma age_band_witness :
  band Sample.young = Some under25
  /\ (exists b, band Sample.ratio16 = Some b).
Proof.
  split.
  - apply (proj1 (age_band_is_right_open_within_bins Sample.young) under25).
    cbn. lia.
  - apply (proj2 (proj2 (age_band_is_right_open_within_bins Sample.ratio16))).
    cbn. lia.
Defined.

(** C8 fails as stated: a claimant aged 200 is at least 65 and yet is in no
    band, [65+] included. *)
Lemma age_200_is_in_no_band :
  In Sample.aged200 (claim_subset (frame_of [Sample.aged200]))
  /\ (65 <= age Sample.aged200)%Z
  /\ band Sample.aged200 = None
  /\ band Sample.aged200 <> Some over65.
Proof.
  split; [now left|]. split; [cbn; lia|]. split; [reflexivity | discriminate].
Qed.

(** ** The loss ratio of rule 1 *)

Lemma Qltb_lt (x y : Q) : Num.Qltb x y = true <-> x < y.
Proof.
  unfold Num.Qltb. rewrite negb_true_iff, <- not_true_iff_false, Qle_bool_iff.
  split; [apply Qnot_le_lt | apply Qlt_not_le].
Qed.

Lemma triggered_iff_holds (cs : list PolicyRecord) (rule : Rule) (r : PolicyRecord) :
  In rule (triggered_rules cs r) <-> rule_holds cs rule r = true.
Proof.
  unfold triggered_rules. rewrite filter_In.
  split; [tauto|]. intro H. split; [|exact H].
  destruct rule; simpl; tauto.
Qed.

Lemma extreme_loss_ratio_iff_stored (cs : list PolicyRecord) (r : PolicyRecord) :
  In extreme_loss_ratio (triggered_rules cs r) <-> 15 < loss_ratio r.
Proof. rewrite triggered_iff_holds. apply Qltb_lt. Qed.

(** The generator stores a ratio of zero where the premium is not positive. *)
Lemma generated_ratio_without_premium (p l : Q) :
  p <= 0 -> MockData.loss_ratio p l = 0 / 10000.
Proof.
  intro Hp. unfold MockData.loss_ratio.
  destruct (Num.Qltb 0 p) eqn:E; [|reflexivity].
  apply Qltb_lt in E. exfalso. apply (Qlt_not_le _ _ E Hp).
Qed.

(** C3, as the engine has it.  Rule 1 reads the [loss_ratio] column stored
    with the record and never recomputes it: a claim record triggers
    [extreme_loss_ratio] exactly when its stored ratio exceeds 15, and the
    count of the rule is the number of such records.  Where the stored ratio
    equals [total_loss / annual_premium] for a positive premium, this is
    exactly when [total_loss] exceeds 15 times [annual_premium]. *)
Theorem extreme_loss_ratio_reads_stored_column (d : DataFrame) (r : PolicyRecord) :
  let cs := claim_subset d in
  In r cs ->
  exists c fc th,
    engine d = inr (c, fc, th)
    /\ flags c = Some (map (joined_flags cs) cs)
    /\ (In extreme_loss_ratio (triggered_rules cs r) <-> 15 < loss_ratio r)
    /\ In (extreme_loss_ratio,
           List.length (filter (fun x => Num.Qltb 15 (loss_ratio x)) cs)) fc
    /\ (0 < annual_premium r ->
        loss_ratio r == total_loss r / annual_premium r ->
        (In extreme_loss_ratio (triggered_rules cs r)
         <-> 15 * annual_premium r < total_loss r)).
Proof.
  intros cs _.
  exists (assessed d), (counted d), (computed_thresholds d).
  split; [apply engine_assessed|]. split; [reflexivity|].
  split; [apply extreme_loss_ratio_iff_stored|].
  split; [now left|].
  intros Hp Hq. rewrite extreme_loss_ratio_iff_stored, Hq.
  split; intro H.
  - apply (Qmult_lt_r _ _ (annual_premium r) Hp) in H.
    rewrite Qmult_comm, (Qmult_comm (total_loss r / annual_premium r)) in H.
    rewrite Qmult_div_r in H; [|intro Z; rewrite Z in Hp; discriminate].
    rewrite Qmult_comm. exact H.
  - apply Qlt_shift_div_l; [exact Hp | exact H].
Qed.

Lemma extreme_loss_ratio_witness :
  In extreme_loss_ratio
     (triggered_rules (claim_subset Sample.scenario) Sample.ratio16)
  <-> 15 * annual_premium Sample.ratio16 < total_loss Sample.ratio16.
Proof.
  destruct (extreme_loss_ratio_reads_stored_column Sample.scenario Sample.ratio16)
    as (c & fc & th & _ & _ & _ & _ & H).
  - vm_compute. now left.
  - apply H; reflexivity.
Defined.

(** C3 fails as stated: a claim whose quotient is 15.00003 carries the
    generator's stored ratio 15.0000; the quotient exceeds 15 for a positive
    premium and the engine does not flag the record under rule 1. *)
Lemma stored_ratio_differs_from_quotient :
  let r := Sample.rounded in
  let cs := claim_subset (frame_of [r]) in
  In r cs
  /\ 0 < annual_premium r
  /\ 15 < total_loss r / annual_premium r
  /\ ~ loss_ratio r == total_loss r / annual_premium r
  /\ engine (frame_of [r])
     = inr ({| rows := [r]; risk_score := Some [1%Z];
               flags := Some ["premium_loss_mismatch"%string];
               age_group := None; outlier_threshold := None |},
            counted (frame_of [r]), computed_thresholds (frame_of [r]))
  /\ ~ In extreme_loss_ratio (triggered_rules cs r).
Proof.
  cbv zeta. split; [now left|].
  split; [reflexivity|]. split; [reflexivity|].
  split; [discriminate|].
  split; [rewrite engine_assessed; vm_compute; reflexivity|].
  vm_compute. intros [H|[]]. discriminate H.
Qed.

(** ** Claims without a positive premium *)

(** C4, as the engine has it.  The engine validates no premium and returns
    normally whatever the premiums are.  A claim record with
    [annual_premium <= 0] is scored like any other: it triggers
    [extreme_loss_ratio] exactly when its stored [loss_ratio] exceeds 15, and
    each of the other four rules exactly when its predicate holds.  Where
    the stored ratio is the one the generator stores for such a premium, the
    record never triggers [extreme_loss_ratio]. *)
Theorem nonpositive_premium_is_scored_on_stored_ratio
        (d : DataFrame) (r : PolicyRecord) :
  let cs := claim_subset d in
  In r cs ->
  annual_premium r <= 0 ->
  exists c fc th,
    engine d = inr (c, fc, th)
    /\ risk_score c = Some (map (score_sum cs) cs)
    /\ flags c = Some (map (joined_flags cs) cs)
    /\ (In extreme_loss_ratio (triggered_rules cs r) <-> 15 < loss_ratio r)
    /\ (forall rule, rule <> extreme_loss_ratio ->
                     (In rule (triggered_rules cs r) <-> rule_holds cs rule r = true))
    /\ (loss_ratio r == MockData.loss_ratio (annual_premium r) (total_loss r) ->
        ~ In extreme_loss_ratio (triggered_rules cs r)).
Proof.
  intros cs _ Hp.
  exists (assessed d), (counted d), (computed_thresholds d).
  split; [apply engine_assessed|]. split; [reflexivity|]. split; [reflexivity|].
  split; [apply extreme_loss_ratio_iff_stored|].
  split; [intros rule _; apply triggered_iff_holds|].
  intro Hgen. rewrite extreme_loss_ratio_iff_stored, Hgen.
  rewrite (generated_ratio_without_premium _ _ Hp). discriminate.
Qed.

Lemma nonpositive_premium_witness :
  ~ In extreme_loss_ratio
      (triggered_rules
         (claim_subset (frame_of [Sample.free_ratio20; Sample.free_generated]))
         Sample.free_generated).
Proof.
  destruct (nonpositive_premium_is_scored_on_stored_ratio
              (frame_of [Sample.free_ratio20; Sample.free_generated])
              Sample.free_generated)
    as (c & fc & th & _ & _ & _ & _ & _ & H).
  - vm_compute. right. now left.
  - vm_compute. discriminate.
  - apply H. reflexivity.
Defined.

(** C4 fails as stated: on a claim with a premium of zero and a stored ratio
    of 20 the engine returns normally, and the record triggers
    [extreme_loss_ratio]. *)
Lemma zero_premium_triggers_extreme_loss_ratio :
  let r := Sample.free_ratio20 in
  let d := frame_of [r] in
  In r (claim_subset d)
  /\ annual_premium r <= 0
  /\ engine d
     = inr ({| rows := [r]; risk_score := Some [4%Z];
               flags := Some ["extreme_loss_ratio,premium_loss_mismatch"%string];
               age_group := None; outlier_threshold := None |},
            counted d, computed_thresholds d)
  /\ In extreme_loss_ratio (triggered_rules (claim_subset d) r).
Proof.
  cbv zeta. split; [now left|]. split; [discriminate|].
  split; [rewrite engine_assessed; vm_compute; reflexivity|].
  vm_compute. now left.
Qed.

(** ** Effects of the engine *)

Lemma loaded_wf (d : DataFrame) : Py.wf (loaded d).
Proof.
  intros r d0. cbn [loaded Py.heap Py.next]. unfold Py.upd.
  destruct (Nat.eqb_spec r 0) as [->|_]; [lia | discriminate].
Qed.

(** C9, as the engine has it.  On a world that holds the dataset behind
    [df], the engine returns normally; every object alive before the call,
    the dataset among them, is unchanged after it; the frame returned is a
    new object; the frame, the counts and the thresholds returned are
    functions of the dataset alone; and the only output is one line printed
    to the standard output, the count of the claim records. *)
Theorem apply_rules_leaves_dataset_unchanged
        (w : Py.World) (df : Py.ref) (d : DataFrame) :
  Py.wf w ->
  Py.heap w df = Some d ->
  exists claims w',
    apply_rules df w = (inr (claims, counted d, computed_thresholds d), w')
    /\ Py.heap w' df = Some d
    /\ (forall r d0, Py.heap w r = Some d0 -> Py.heap w' r = Some d0)
    /\ Py.heap w claims = None
    /\ Py.heap w' claims = Some (assessed d)
    /\ Py.stdout w'
       = (Py.stdout w ++ [claims_message (List.length (claim_subset d))])%list.
Proof.
  intros Hwf Hdf.
  destruct (apply_rules_run w df d Hdf) as (w' & Hrun & Hclaims & Hframe & Hout & _).
  assert (Hold : forall r d0, Py.heap w r = Some d0 -> Py.heap w' r = Some d0).
  { intros r d0 Hr. pose proof (Hwf r d0 Hr) as Hlt.
    rewrite Hframe; [exact Hr | lia | lia]. }
  exists (S (Py.next w)), w'.
  split; [exact Hrun|]. split; [now apply Hold|]. split; [exact Hold|].
  split; [|split; [exact Hclaims | exact Hout]].
  destruct (Py.heap w (S (Py.next w))) as [d0|] eqn:E; [|reflexivity].
  apply Hwf in E. lia.
Qed.

Lemma apply_rules_frame_witness :
  exists claims w',
    apply_rules 0%nat (loaded Sample.scenario)
    = (inr (claims, counted Sample.scenario, computed_thresholds Sample.scenario), w')
    /\ Py.heap w' 0%nat = Some Sample.scenario
    /\ (forall r d0, Py.heap (loaded Sample.scenario) r = Some d0 ->
                     Py.heap w' r = Some d0)
    /\ Py.heap (loaded Sample.scenario) claims = None
    /\ Py.heap w' claims = Some (assessed Sample.scenario)
    /\ Py.stdout w'
       = (Py.stdout (loaded Sample.scenario)
            ++ [claims_message (List.length (claim_subset Sample.scenario))])%list.
Proof.
  apply (apply_rules_leaves_dataset_unchanged (loaded Sample.scenario) 0%nat
                                               Sample.scenario).
  - intros r d0. destruct r; cbn; [lia | intro H; discriminate H].
  - reflexivity.
Defined.

(** C9 fails as stated: the engine prints.  On the empty dataset the
    standard output, empty before the call, holds one line after it. *)
Lemma apply_rules_prints :
  let w := loaded (frame_of []) in
  Py.stdout w = []
  /\ Py.stdout (snd (apply_rules 0%nat w))
     = [("Customers with claims (total_loss > 0): 0" ++ Fmt.newline)%string]
  /\ Py.stdout (snd (apply_rules 0%nat w)) <> Py.stdout w.
Proof.
  cbv zeta. split; [reflexivity|].
  split; [vm_compute; reflexivity | vm_compute; discriminate].
Qed.

(** ** Percentile cutoffs *)

Section Sorting.

Import Num.

Lemma insert_perm (x : Q) (l : list Q) : Permutation (x :: l) (insert x l).
Proof.
  induction l as [|y t IH]; simpl; [reflexivity|].
  destruct (Qle_bool x y); [reflexivity|].
  rewrite perm_swap. now apply perm_skip.
Qed.

Lemma sort_perm (l : list Q) : Permutation l (sort l).
Proof.
  induction l as [|x t IH]; simpl; [reflexivity|].
  rewrite <- insert_perm. now apply perm_skip.
Qed.

Lemma Qle_bool_false (x y : Q) : Qle_bool x y = false -> y <= x.
Proof.
  intro H. apply Qlt_le_weak, Qnot_le_lt. intro L.
  apply Qle_bool_iff in L. congruence.
Qed.

Lemma insert_sorted (x : Q) (l : list Q) :
  StronglySorted Qle l -> StronglySorted Qle (insert x l).
Proof.
  induction 1 as [|y t Hs IH Hy]; simpl; [repeat constructor|].
  destruct (Qle_bool x y) eqn:E.
  - apply Qle_bool_iff in E. constructor; [now constructor|].
    constructor; [exact E|].
    eapply Forall_impl; [|exact Hy]. intros z Hz. now apply Qle_trans with y.
  - constructor; [exact IH|].
    apply (Permutation_Forall (insert_perm x t)).
    constructor; [now apply Qle_bool_false | exact Hy].
Qed.

Lemma sort_sorted (l : list Q) : StronglySorted Qle (sort l).
Proof.
  induction l as [|x t IH]; simpl; [constructor | now apply insert_sorted].
Qed.

Lemma reduced_Qred (x : Q) : reduced (Qred x).
Proof. apply Qred_complete, Qred_correct. Qed.

Lemma reduced_antisym (x y : Q) :
  reduced x -> reduced y -> x <= y -> y <= x -> x = y.
Proof.
  intros Hx Hy L1 L2. rewrite <- Hx, <- Hy.
  apply Qred_complete. now apply Qle_antisym.
Qed.

(** Two sorted lists of reduced rationals with the same elements are the
    same list. *)
Lemma sorted_perm_unique (l1 l2 : list Q) :
  Forall reduced l1 ->
  StronglySorted Qle l1 -> StronglySorted Qle l2 ->
  Permutation l1 l2 -> l1 = l2.
Proof.
  revert l2. induction l1 as [|a t1 IH]; intros l2 Hred S1 S2 P.
  - now apply Permutation_nil in P.
  - destruct l2 as [|b t2];
      [apply Permutation_sym, Permutation_nil in P; discriminate|].
    inversion S1 as [|? ? S1' F1]; subst.
    inversion S2 as [|? ? S2' F2]; subst.
    inversion Hred as [|? ? Ra Rt]; subst.
    assert (Rb : reduced b).
    { apply (proj1 (Forall_forall _ _) Hred).
      apply (Permutation_in _ (Permutation_sym P)). now left. }
    assert (Lba : b <= a).
    { assert (I : In a (b :: t2)) by (apply (Permutation_in _ P); now left).
      destruct I as [->|I]; [apply Qle_refl|].
      exact (proj1 (Forall_forall _ _) F2 _ I). }
    assert (Lab : a <= b).
    { assert (I : In b (a :: t1))
        by (apply (Permutation_in _ (Permutation_sym P)); now left).
      destruct I as [->|I]; [apply Qle_refl|].
      exact (proj1 (Forall_forall _ _) F1 _ I). }
    assert (E : a = b) by now apply reduced_antisym.
    subst b. f_equal. apply IH; try assumption.
    now apply Permutation_cons_inv with a.
Qed.

Lemma Qle_bool_Qred (x y : Q) : Qle_bool (Qred x) (Qred y) = Qle_bool x y.
Proof. now rewrite !Qred_correct. Qed.

Lemma insert_Qred (x : Q) (l : list Q) :
  insert (Qred x) (map Qred l) = map Qred (insert x l).
Proof.
  induction l as [|y t IH]; simpl; [reflexivity|].
  rewrite Qle_bool_Qred. destruct (Qle_bool x y); simpl; [reflexivity|].
  now rewrite IH.
Qed.

Lemma sort_Qred (l : list Q) : sort (map Qred l) = map Qred (sort l).
Proof.
  induction l as [|x t IH]; simpl; [reflexivity|].
  now rewrite IH, insert_Qred.
Qed.

(** Sorting does not depend on the order of the input, up to the equality
    of rationals. *)
Lemma sort_perm_invariant (l l' : list Q) :
  Permutation l l' -> map Qred (sort l) = map Qred (sort l').
Proof.
  intro P. rewrite <- !sort_Qred.
  apply sorted_perm_unique; try apply sort_sorted.
  - apply (Permutation_Forall (sort_perm _)).
    apply Forall_forall. intros x Hx. apply in_map_iff in Hx.
    destruct Hx as (y & <- & _). apply reduced_Qred.
  - rewrite <- !sort_perm. now apply Permutation_map.
Qed.

Lemma nth_sort_perm_invariant (l l' : list Q) (i : nat) :
  Permutation l l' -> nth i (sort l) 0 == nth i (sort l') 0.
Proof.
  intro P.
  rewrite <- (Qred_correct (nth i (sort l) 0)),
          <- (Qred_correct (nth i (sort l') 0)).
  rewrite <- !(map_nth Qred).
  now rewrite (sort_perm_invariant l l' P).
Qed.

(** A quantile does not depend on the order of the column. *)
Lemma quantile_perm_invariant (q : Q) (l l' : list Q) :
  Permutation l l' -> eqf (quantile q l) (quantile q l').
Proof.
  intro P. pose proof (Permutation_length P) as Hlen.
  destruct l as [|x t].
  - apply Permutation_nil in P. subst l'. exact I.
  - destruct l' as [|x' t']; [discriminate|].
    unfold quantile. rewrite <- Hlen. cbn [eqf].
    set (h := inject_Z (Z.of_nat (List.length (x :: t)) - 1) * q).
    set (lo := Z.to_nat (Qfloor h)).
    set (hi := Nat.min (S lo) (List.length (x :: t) - 1)).
    pose proof (nth_sort_perm_invariant _ _ lo P) as Ha.
    pose proof (nth_sort_perm_invariant _ _ hi P) as Hb.
    now rewrite Ha, Hb.
Qed.

End Sorting.

Lemma ge_cutoff_eqf (x : Q) (t t' : option Q) :
  Num.eqf t t' -> ge_cutoff x t = ge_cutoff x t'.
Proof.
  destruct t as [a|], t' as [b|]; cbn; try tauto.
  intro E. unfold Num.Qleb. now rewrite E.
Qed.

Lemma le_cutoff_eqf (x : Q) (t t' : option Q) :
  Num.eqf t t' -> le_cutoff x t = le_cutoff x t'.
Proof.
  destruct t as [a|], t' as [b|]; cbn; try tauto.
  intro E. unfold Num.Qleb. now rewrite E.
Qed.

Lemma loss_p95_perm (cs cs' : list PolicyRecord) :
  Permutation cs cs' -> Num.eqf (loss_p95 cs) (loss_p95 cs').
Proof. intro P. apply quantile_perm_invariant. now apply Permutation_map. Qed.

Lemma premium_p25_perm (cs cs' : list PolicyRecord) :
  Permutation cs cs' -> Num.eqf (premium_p25 cs) (premium_p25 cs').
Proof. intro P. apply quantile_perm_invariant. now apply Permutation_map. Qed.

(** C7.  The engine computes [loss_95_threshold] as the 95th percentile of
    [total_loss] and [premium_25_threshold] as the 25th percentile of
    [annual_premium] over the whole claim subset; rule 5 tests every record,
    of whatever age band, against these same two values; and reordering the
    claim subset changes neither value, nor the records rule 5 holds
    for. *)
Theorem percentile_cutoffs_are_global_and_order_free (d d' : DataFrame) :
  Permutation (claim_subset d) (claim_subset d') ->
  exists c fc th c' fc' th',
    engine d = inr (c, fc, th)
    /\ engine d' = inr (c', fc', th')
    /\ loss_95_threshold th
       = Num.quantile (95 # 100) (map total_loss (claim_subset d))
    /\ premium_25_threshold th
       = Num.quantile (25 # 100) (map annual_premium (claim_subset d))
    /\ (forall r,
           rule_holds (claim_subset d) premium_loss_mismatch r
           = ge_cutoff (total_loss r) (loss_95_threshold th)
             && le_cutoff (annual_premium r) (premium_25_threshold th))
    /\ Num.eqf (loss_95_threshold th) (loss_95_threshold th')
    /\ Num.eqf (premium_25_threshold th) (premium_25_threshold th')
    /\ (forall r,
           rule_holds (claim_subset d) premium_loss_mismatch r
           = rule_holds (claim_subset d') premium_loss_mismatch r).
Proof.
  intro P.
  exists (assessed d), (counted d), (computed_thresholds d),
         (assessed d'), (counted d'), (computed_thresholds d').
  split; [apply engine_assessed|]. split; [apply engine_assessed|].
  split; [reflexivity|]. split; [reflexivity|]. split; [reflexivity|].
  split; [now apply loss_p95_perm|]. split; [now apply premium_p25_perm|].
  intro r. cbn [rule_holds].
  rewrite (ge_cutoff_eqf _ _ _ (loss_p95_perm _ _ P)).
  now rewrite (le_cutoff_eqf _ _ _ (premium_p25_perm _ _ P)).
Qed.

Lemma percentile_cutoffs_witness :
  exists c fc th c' fc' th',
    engine Sample.scenario = inr (c, fc, th)
    /\ engine Sample.reordered = inr (c', fc', th')
    /\ loss_95_threshold th
       = Num.quantile (95 # 100) (map total_loss (claim_subset Sample.scenario))
    /\ premium_25_threshold th
       = Num.quantile (25 # 100) (map annual_premium (claim_subset Sample.scenario))
    /\ (forall r,
           rule_holds (claim_subset Sample.scenario) premium_loss_mismatch r
           = ge_cutoff (total_loss r) (loss_95_threshold th)
             && le_cutoff (annual_premium r) (premium_25_threshold th))
    /\ Num.eqf (loss_95_threshold th) (loss_95_threshold th')
    /\ Num.eqf (premium_25_threshold th) (premium_25_threshold th')
    /\ (forall r,
           rule_holds (claim_subset Sample.scenario) premium_loss_mismatch r
           = rule_holds (claim_subset Sample.reordered) premium_loss_mismatch r).
Proof.
  apply (percentile_cutoffs_are_global_and_order_free Sample.scenario Sample.reordered).
  change (claim_subset Sample.reordered)
    with (rev (claim_subset Sample.scenario)).
  apply Permutation_rev.
Defined.

(** ** The flagged and ranked view *)

Lemma select_positive_scores (cs : list PolicyRecord) (f : PolicyRecord -> Z) :
  Pd.select (map (fun s => (0 <? s)%Z) (map f cs)) cs
  = filter (fun r => (0 <? f r)%Z) cs.
Proof. rewrite map_map. apply select_map_filter. Qed.

(** The flagged view of the engine's result holds exactly the claim records
    with a positive score, in dataset order, each with its score. *)
Lemma flagged_assessed (d : DataFrame) :
  let cs := claim_subset d in
  exists f,
    flagged (assessed d) = inr f
    /\ rows f = filter (fun r => (0 <? score_sum cs r)%Z) cs
    /\ risk_score f
       = Some (map (score_sum cs) (filter (fun r => (0 <? score_sum cs r)%Z) cs)).
Proof.
  intro cs. eexists. split; [reflexivity|].
  cbn [rows risk_score assessed Pd.getitem_mask option_map]. fold cs.
  split; [apply select_positive_scores|].
  f_equal. rewrite map_map.
  apply (select_map_map cs (fun r => (0 <? score_sum cs r)%Z) (score_sum cs)).
Qed.

Section Ranking.

(** The positions [sort_values("risk_score", ascending=False)] arranges the
    rows in.  The call leaves the sorting algorithm to the library's
    default, which promises an arrangement of all the rows with the scores
    in descending order, and no more. *)
Variable positions : list Z -> list nat.

Hypothesis positions_perm :
  forall scores, Permutation (positions scores) (seq 0 (List.length scores)).

Hypothesis positions_descending :
  forall scores, StronglySorted Z.ge (take_scores (positions scores) scores).

Lemma take_all {A} (l : list A) :
  flat_map (fun i => match nth_error l i with
                     | Some x => [x]
                     | None => []
                     end) (seq 0 (List.length l)) = l.
Proof.
  induction l as [|x t IH]; [reflexivity|].
  cbn [List.length seq flat_map nth_error app]. f_equal.
  rewrite <- seq_shift, flat_map_concat_map, map_map, <- flat_map_concat_map.
  exact IH.
Qed.

(** The ranked view holds the rows of the flagged view, each once. *)
Lemma ranked_rows_perm (f : DataFrame) (scores : list Z) :
  List.length scores = List.length (rows f) ->
  Permutation (take_rows (positions scores) f) (rows f).
Proof.
  intro Hlen. unfold take_rows.
  rewrite (Permutation_flat_map _ (positions_perm scores)).
  rewrite Hlen. now rewrite take_all.
Qed.

(** The scores of the ranked view are those of the flagged view, in
    descending order. *)
Lemma ranked_scores_descending (scores : list Z) :
  Permutation (take_scores (positions scores) scores) scores
  /\ StronglySorted Z.ge (take_scores (positions scores) scores).
Proof.
  split; [|apply positions_descending].
  unfold take_scores.
  rewrite (Permutation_flat_map _ (positions_perm scores)).
  now rewrite take_all.
Qed.

End Ranking.

(** ** The outlier threshold as a real number *)

Section RealThreshold.

Lemma Qsum_squares_nonneg (m : Q) (l : list Q) :
  0 <= Num.Qsum (map (fun x => (x - m) * (x - m)) l).
Proof.
  induction l as [|x t IH]; simpl; [apply Qle_refl|].
  rewrite <- (Qplus_0_r 0). apply Qplus_le_compat; [|exact IH].
  destruct (Qlt_le_dec (x - m) 0) as [N|P].
  - setoid_replace ((x - m) * (x - m)) with ((- (x - m)) * (- (x - m))) by ring.
    apply Qmult_le_0_compat; apply Qlt_le_weak; now apply (Qopp_lt_compat (x - m) 0).
  - now apply Qmult_le_0_compat.
Qed.

(** The variance of a group is not negative. *)
Lemma var_nonneg (l : list Q) (v : Q) : Num.var l = Some v -> 0 <= v.
Proof.
  unfold Num.var. destruct (Num.mean l) as [m|]; [|discriminate].
  destruct (Nat.ltb_spec (List.length l) 2) as [|Hlen]; [discriminate|].
  intro E. injection E as <-.
  apply Qle_shift_div_l.
  - unfold Num.Qlen, Qlt. simpl. lia.
  - rewrite Qmult_0_l. apply Qsum_squares_nonneg.
Qed.

(** The comparison the model decides by squaring is the comparison of
    [total_loss] with the real number [mean + 3 * sqrt variance]. *)
Lemma gt_threshold_real (x m v : Q) :
  0 <= v ->
  Num.gt_threshold x (Some (Num.mean_plus_3std m v)) = true
  <-> (Q2R m + 3 * sqrt (Q2R v) < Q2R x)%R.
Proof.
  intro Hv. apply Qle_Rle in Hv. rewrite RMicromega.Q2R_0 in Hv.
  cbn [Num.gt_threshold Num.thr_mean Num.thr_var].
  rewrite andb_true_iff, !Qltb_lt.
  pose proof (sqrt_pos (Q2R v)) as Hs.
  pose proof (sqrt_sqrt (Q2R v) Hv) as Hss.
  assert (H9 : Q2R 9 = 9%R) by (unfold Q2R; simpl; lra).
  split.
  - intros [H1 H2]. apply Qlt_Rlt in H1, H2.
    rewrite !Q2R_mult, !Q2R_minus, H9 in H2. nra.
  - intro H. split; apply Rlt_Qlt; [nra|].
    rewrite !Q2R_mult, !Q2R_minus, H9. nra.
Qed.

(** Rule 2 holds for a record exactly when its [total_loss] exceeds the
    mean plus three standard deviations of the losses of its band. *)
Lemma statistical_outlier_real (cs : list PolicyRecord) (r : PolicyRecord)
      (b : AgeBand) (m v : Q) :
  band r = Some b ->
  Num.mean (band_losses cs b) = Some m ->
  Num.var (band_losses cs b) = Some v ->
  rule_holds cs statistical_outlier r = true
  <-> (Q2R m + 3 * sqrt (Q2R v) < Q2R (total_loss r))%R.
Proof.
  intros Hb Hm Hv. cbn [rule_holds]. unfold record_threshold, band_threshold.
  rewrite Hb, Hm, Hv. cbn [threshold_of].
  apply gt_threshold_real. now apply var_nonneg with (band_losses cs b).
Qed.

End RealThreshold.

(** * Further properties of the engine *)

(** ** Trigger counts against scores *)

Section Accounting.

Context {A : Type}.

Lemma Zsum_indicator (p : A -> bool) (w : Z) (l : list A) :
  Zsum (map (fun x => if p x then w else 0%Z) l)
  = (w * Z.of_nat (List.length (filter p l)))%Z.
Proof.
  unfold Zsum. induction l as [|x t IH]; [simpl; lia|].
  cbn [map fold_right filter]. rewrite IH.
  destruct (p x); cbn [List.length]; lia.
Qed.

Lemma Zsum_map_add (f g : A -> Z) (l : list A) :
  Zsum (map (fun x => (f x + g x)%Z) l) = (Zsum (map f l) + Zsum (map g l))%Z.
Proof.
  unfold Zsum. induction l as [|x t IH]; [reflexivity|].
  cbn [map fold_right]. rewrite IH. lia.
Qed.

Lemma filter_length_le (p q : A -> bool) (l : list A) :
  (forall x, p x = true -> q x = true) ->
  (List.length (filter p l) <= List.length (filter q l))%nat.
Proof.
  intro H. induction l as [|x t IH]; [reflexivity|].
  cbn [filter]. destruct (p x) eqn:P.
  - rewrite (H x P). cbn [List.length]. lia.
  - destruct (q x); cbn [List.length]; lia.
Qed.

Lemma filter_map_length {B} (p : B -> bool) (f : A -> B) (l : list A) :
  List.length (filter p (map f l)) = List.length (filter (fun x => p (f x)) l).
Proof.
  induction l as [|x t IH]; [reflexivity|].
  cbn [map filter]. destruct (p (f x)); cbn [List.length]; now rewrite IH.
Qed.

End Accounting.

Lemma rule_holds_scores (cs : list PolicyRecord) (rule : Rule) (r : PolicyRecord) :
  rule_holds cs rule r = true -> (0 <? score_sum cs r)%Z = true.
Proof.
  intro H. apply Z.ltb_lt. rewrite score_sum_additive.
  cbn [map all_rules fold_right].
  destruct rule; rewrite H; cbn [score RULE_DEFINITIONS];
    repeat match goal with
           | |- context [if ?b then _ else _] => destruct b
           end; lia.
Qed.

Lemma total_score_by_rule (cs : list PolicyRecord) :
  Zsum (map (score_sum cs) cs)
  = Zsum (map (fun rule => (score (RULE_DEFINITIONS rule)
                            * Z.of_nat (trigger_count cs rule))%Z) all_rules).
Proof.
  rewrite (map_ext _ _ (score_sum_additive cs)).
  cbn [map all_rules fold_right].
  rewrite !(Zsum_map_add (A := PolicyRecord)).
  rewrite !(Zsum_indicator (A := PolicyRecord)).
  unfold trigger_count, Zsum at 2. cbn [fold_right].
  replace (Zsum (map (fun _ : PolicyRecord => 0%Z) cs)) with 0%Z; [lia|].
  unfold Zsum. induction cs as [|x t IH]; [reflexivity|]. cbn. exact IH.
Qed.

(** X1.  The trigger counts the engine returns account for the scores: the
    sum of all risk scores equals the sum over the five rules of weight times
    trigger count; the counts are listed in evaluation order; each is the
    number of claim records the rule holds for, and none exceeds the number
    of flagged records. *)
Theorem flag_counts_account_for_scores (d : DataFrame) :
  exists c fc th scores,
    engine d = inr (c, fc, th)
    /\ risk_score c = Some scores
    /\ map fst fc = all_rules
    /\ Zsum scores
       = Zsum (map (fun e => (score (RULE_DEFINITIONS (fst e)) * Z.of_nat (snd e))%Z) fc)
    /\ forall rule n,
        In (rule, n) fc ->
        n = List.length (filter (rule_holds (claim_subset d) rule) (claim_subset d))
        /\ (n <= List.length (filter (fun s => (0 <? s)%Z) scores))%nat.
Proof.
  set (cs := claim_subset d).
  exists (assessed d), (counted d), (computed_thresholds d), (map (score_sum cs) cs).
  split; [apply engine_assessed|]. split; [reflexivity|].
  split; [reflexivity|]. split.
  - rewrite total_score_by_rule. unfold counted. fold cs. now rewrite map_map.
  - intros rule n Hin. unfold counted in Hin. fold cs in Hin.
    apply in_map_iff in Hin. destruct Hin as (rule' & E & _).
    injection E as <- <-. split; [reflexivity|].
    rewrite filter_map_length.
    apply filter_length_le. intros x Hx. now apply rule_holds_scores with rule'.
Qed.

(** ** How many claims a band needs for an outlier *)

From Stdlib Require Import Lqa.

Section Deviation.

Import Num.












End Deviation.




(** Eleven claims are enough: the large claim among ten small ones is an
    outlier of its band. *)
Example eleven_claims_can_hold_an_outlier :
  List.length (filter (in_band under25) (claim_subset Cases.eleven)) = 11%nat
  /\ rule_holds (claim_subset Cases.eleven) statistical_outlier Sample.large = true.
Proof. split; vm_compute; reflexivity. Qed.

(** ** Percentile cutoffs lie within the column *)

Section QuantileBounds.

Import Num.

Variable q : Q.
Hypothesis q_range : 0 <= q <= 1.

Lemma quantile_position (n : nat) :
  let h := inject_Z (Z.of_nat (S n) - 1) * q in
  (Z.to_nat (Qfloor h) <= n)%nat
  /\ 0 <= h - inject_Z (Qfloor h) < 1.
Proof.
  intro h.
  assert (Hn : inject_Z (Z.of_nat (S n) - 1) == inject_Z (Z.of_nat n)).
  { apply inject_Z_injective. lia. }
  assert (Hn0 : 0 <= inject_Z (Z.of_nat n)).
  { change 0 with (inject_Z 0). rewrite <- Zle_Qle. lia. }
  assert (H0 : 0 <= h) by (unfold h; rewrite Hn; nra).
  assert (H1 : h <= inject_Z (Z.of_nat n)) by (unfold h; rewrite Hn; nra).
  split.
  - apply Qfloor_resp_le in H1. rewrite Qfloor_Z in H1.
    apply Qfloor_resp_le in H0. change (Qfloor 0) with 0%Z in H0. lia.
  - pose proof (Qfloor_le h). pose proof (Qlt_floor h) as L.
    rewrite inject_Z_plus in L. change (inject_Z 1) with 1 in L. lra.
Qed.

Lemma nth_sort_in (col : list Q) (i : nat) :
  (i < List.length col)%nat -> In (nth i (sort col) 0) col.
Proof.
  intro Hi. apply (Permutation_in _ (Permutation_sym (sort_perm col))).
  apply nth_In. now rewrite <- (Permutation_length (sort_perm col)).
Qed.

(** A quantile of a non-empty column is defined and lies between any lower
    and any upper bound of the column. *)
Lemma quantile_within (col : list Q) (lower upper : Q) :
  col <> [] ->
  (forall y, In y col -> lower <= y <= upper) ->
  exists v, quantile q col = Some v /\ lower <= v <= upper.
Proof.
  intros Hne Hb. destruct col as [|x t]; [congruence|].
  unfold quantile. cbv zeta.
  destruct (quantile_position (List.length t)) as [Hlo Hf].
  cbn [List.length] in *.
  set (h := inject_Z (Z.of_nat (S (List.length t)) - 1) * q) in *.
  set (lo := Z.to_nat (Qfloor h)) in *.
  set (hi := Nat.min (S lo) (S (List.length t) - 1)).
  assert (Ha : In (nth lo (sort (x :: t)) 0) (x :: t)).
  { apply nth_sort_in. cbn [List.length]. lia. }
  assert (Hh : In (nth hi (sort (x :: t)) 0) (x :: t)).
  { apply nth_sort_in. cbn [List.length]. unfold hi. lia. }
  apply Hb in Ha, Hh.
  eexists. split; [reflexivity|].
  set (a := nth lo (sort (x :: t)) 0) in *.
  set (b := nth hi (sort (x :: t)) 0) in *.
  set (f := h - inject_Z (Qfloor h)) in *.
  clearbody a b f. nra.
Qed.

End QuantileBounds.

Lemma ge_cutoff_of_upper_bound (x : Q) (col : list Q) (qq : Q) :
  0 <= qq <= 1 -> In x col -> (forall y, In y col -> y <= x) ->
  ge_cutoff x (Num.quantile qq col) = true.
Proof.
  intros Hq Hin Hmax.
  assert (Hmin : exists lo, forall y, In y col -> lo <= y <= x).
  { clear Hin. induction col as [|a t IH]; [exists 0; contradiction|].
    destruct IH as [lo Hlo]; [intros y Hy; apply Hmax; now right|].
    destruct (Qlt_le_dec a lo) as [L|L].
    - exists a. intros y [<-|Hy];
        [split; [lra | apply Hmax; now left]|].
      destruct (Hlo y Hy). split; lra.
    - exists lo. intros y [<-|Hy]; [split; [lra | apply Hmax; now left]|].
      now apply Hlo. }
  destruct Hmin as [lo Hb].
  destruct (quantile_within qq Hq col lo x) as (v & -> & Hv);
    [intro E; now rewrite E in Hin | exact Hb |].
  cbn. apply Qle_bool_iff. lra.
Qed.

Lemma le_cutoff_of_lower_bound (x : Q) (col : list Q) (qq : Q) :
  0 <= qq <= 1 -> In x col -> (forall y, In y col -> x <= y) ->
  le_cutoff x (Num.quantile qq col) = true.
Proof.
  intros Hq Hin Hmin.
  assert (Hmax : exists hi, forall y, In y col -> x <= y <= hi).
  { clear Hin. induction col as [|a t IH]; [exists 0; contradiction|].
    destruct IH as [hi Hhi]; [intros y Hy; apply Hmin; now right|].
    destruct (Qlt_le_dec hi a) as [L|L].
    - exists a. intros y [<-|Hy];
        [split; [apply Hmin; now left | lra]|].
      destruct (Hhi y Hy). split; lra.
    - exists hi. intros y [<-|Hy]; [split; [apply Hmin; now left | lra]|].
      now apply Hhi. }
  destruct Hmax as [hi Hb].
  destruct (quantile_within qq Hq col x hi) as (v & -> & Hv);
    [intro E; now rewrite E in Hin | exact Hb |].
  cbn. apply Qle_bool_iff. lra.
Qed.

(** X3.  A claim record that has both the largest [total_loss] and the
    smallest [annual_premium] of the claim subset always triggers
    [premium_loss_mismatch] and is therefore flagged; in particular the
    only claim of a dataset with a single claim always is. *)
Theorem extreme_record_triggers_premium_loss_mismatch
        (d : DataFrame) (r : PolicyRecord) :
  let cs := claim_subset d in
  In r cs ->
  (forall r', In r' cs -> total_loss r' <= total_loss r) ->
  (forall r', In r' cs -> annual_premium r <= annual_premium r') ->
  exists c fc th,
    engine d = inr (c, fc, th)
    /\ risk_score c = Some (map (score_sum cs) cs)
    /\ In premium_loss_mismatch (triggered_rules cs r)
    /\ (0 < score_sum cs r)%Z.
Proof.
  intros cs Hin Hloss Hprem.
  assert (H5 : rule_holds cs premium_loss_mismatch r = true).
  { cbn [rule_holds]. apply andb_true_iff. split.
    - apply ge_cutoff_of_upper_bound; [split; discriminate | now apply in_map |].
      intros y Hy. apply in_map_iff in Hy. destruct Hy as (r' & <- & Hr').
      now apply Hloss.
    - apply le_cutoff_of_lower_bound; [split; discriminate | now apply in_map |].
      intros y Hy. apply in_map_iff in Hy. destruct Hy as (r' & <- & Hr').
      now apply Hprem. }
  exists (assessed d), (counted d), (computed_thresholds d).
  split; [apply engine_assessed|]. split; [reflexivity|].
  split; [now apply triggered_iff_holds|].
  apply Z.ltb_lt. now apply rule_holds_scores with premium_loss_mismatch.
Qed.

Lemma extreme_record_witness :
  In premium_loss_mismatch
     (triggered_rules (claim_subset (frame_of [Sample.rounded])) Sample.rounded).
Proof.
  destruct (extreme_record_triggers_premium_loss_mismatch
              (frame_of [Sample.rounded]) Sample.rounded)
    as (c & fc & th & _ & _ & H & _).
  - vm_compute. now left.
  - intros r' [<-|[]]. apply Qle_refl.
  - intros r' [<-|[]]. apply Qle_refl.
  - exact H.
Defined.

(** ** Running the engine on its own result *)

Lemma filter_idempotent {A} (p : A -> bool) (l : list A) :
  filter p (filter p l) = filter p l.
Proof.
  induction l as [|x t IH]; [reflexivity|].
  cbn [filter]. destruct (p x) eqn:E; [|exact IH].
  cbn [filter]. now rewrite E, IH.
Qed.

Lemma assessed_depends_on_claims (d d' : DataFrame) :
  claim_subset d = claim_subset d' ->
  assessed d = assessed d' /\ counted d = counted d'
  /\ computed_thresholds d = computed_thresholds d'.
Proof.
  intro E. unfold assessed, counted, computed_thresholds. now rewrite E.
Qed.

(** X4.  The engine overwrites whatever [risk_score], [flags], [age_group]
    or [outlier_threshold] columns its input carries: two datasets with the
    same records give the same result.  Run on the frame it returned, the
    engine returns that frame, the same counts and the same thresholds
    again. *)
Theorem engine_is_idempotent (d : DataFrame) :
  (forall d', rows d' = rows d -> engine d' = engine d)
  /\ exists c fc th, engine d = inr (c, fc, th) /\ engine c = inr (c, fc, th).
Proof.
  split.
  - intros d' E. rewrite !engine_assessed.
    destruct (assessed_depends_on_claims d' d) as (-> & -> & ->);
      [unfold claim_subset; now rewrite E | reflexivity].
  - exists (assessed d), (counted d), (computed_thresholds d).
    split; [apply engine_assessed|]. rewrite engine_assessed.
    destruct (assessed_depends_on_claims (assessed d) d) as (-> & -> & ->);
      [|reflexivity].
    unfold claim_subset at 1. cbn [rows assessed]. apply filter_idempotent.
Qed.

Lemma engine_idempotent_witness :
  engine (set_risk_score [7%Z] (frame_of [Sample.rounded]))
  = engine (frame_of [Sample.rounded]).
Proof.
  apply (proj1 (engine_is_idempotent (frame_of [Sample.rounded]))).
  reflexivity.
Defined.

(** ** The flagged view, column by column *)

(** X5.  The frame [claims[claims["risk_score"] > 0]], which the summary,
    the CSV writer and the HTML report start from, holds exactly the claim
    records whose score is positive, in dataset order; its [risk_score] and
    [flags] columns still pair each record with its own score and flags;
    every score in it is positive and every flags entry non-empty. *)
Theorem flagged_view_keeps_rows_aligned (d : DataFrame) :
  let cs := claim_subset d in
  exists c fc th f scores fl,
    engine d = inr (c, fc, th)
    /\ flagged c = inr f
    /\ rows f = filter (fun r => (0 <? score_sum cs r)%Z) cs
    /\ risk_score f = Some scores /\ flags f = Some fl
    /\ scores = map (score_sum cs) (rows f)
    /\ fl = map (joined_flags cs) (rows f)
    /\ Forall (fun s => (0 < s <= 10)%Z) scores
    /\ Forall (fun s => s <> EmptyString) fl.
Proof.
  intro cs.
  set (pos := fun r => (0 <? score_sum cs r)%Z).
  exists (assessed d), (counted d), (computed_thresholds d).
  eexists. exists (map (score_sum cs) (filter pos cs)),
                  (map (joined_flags cs) (filter pos cs)).
  split; [apply engine_assessed|]. split; [reflexivity|].
  cbn [rows risk_score flags assessed Pd.getitem_mask option_map]. fold cs.
  assert (R : Pd.select (map (fun s => (0 <? s)%Z) (map (score_sum cs) cs)) cs
              = filter pos cs) by apply select_positive_scores.
  split; [exact R|].
  split; [f_equal; rewrite map_map; apply (select_map_map cs pos (score_sum cs))|].
  split; [f_equal; rewrite map_map; apply (select_map_map cs pos (joined_flags cs))|].
  rewrite R. split; [reflexivity|]. split; [reflexivity|].
  split; apply Forall_forall; intros x Hx; apply in_map_iff in Hx;
    destruct Hx as (r & <- & Hr); apply filter_In in Hr; destruct Hr as [_ Hr];
    unfold pos in Hr; apply Z.ltb_lt in Hr.
  - pose proof (score_sum_range cs r). lia.
  - now apply flags_nonempty_iff_scored.
Qed.

(** ** The report table *)

Section ReportTable.

Variable cs : list PolicyRecord.
Variable r : PolicyRecord.

Ltac by_rules :=
  unfold joined_flags, score_sum, triggered_rules; cbn [filter all_rules];
  destruct (rule_holds cs extreme_loss_ratio r),
           (rule_holds cs statistical_outlier r),
           (rule_holds cs new_car_high_loss r),
           (rule_holds cs young_driver_extreme r),
           (rule_holds cs premium_loss_mismatch r).

(** X6.  Splitting a flags entry of the engine at the commas gives back the
    triggered rules: the report displays the labels of exactly the rules
    that hold for the record, in evaluation order, joined by a comma and a
    space; the test [f in RULE_DEFINITIONS] drops nothing but the empty
    string of an unflagged record. *)
Theorem flags_display_shows_triggered_labels :
  flags_display (joined_flags cs r)
  = String.concat ", " (map (fun rule => label (RULE_DEFINITIONS rule))
                            (triggered_rules cs r))
  /\ flat_map (fun f => match rule_of_name f with
                        | Some rule => [rule]
                        | None => []
                        end) (Str.split ","%char (joined_flags cs r))
     = triggered_rules cs r.
Proof.
  unfold flags_display. by_rules; split; vm_compute; reflexivity.
Qed.

(** X7.  The colour of a row of the report follows the number of rules that
    hold for its record: a record with a single rule is always yellow, an
    amber row needs at least two rules and a red row at least three, and a
    record with all five rules is red. *)
Theorem risk_color_needs_several_rules :
  let k := List.length (triggered_rules cs r) in
  let color := risk_color (score_sum cs r) in
  ((k <= 1)%nat -> color = "#EAB308"%string)
  /\ (color = "#F59E0B"%string -> (2 <= k)%nat)
  /\ (color = "#EF4444"%string -> (3 <= k)%nat)
  /\ (k = 5%nat -> color = "#EF4444"%string).
Proof.
  by_rules; cbn; repeat split; intro H;
    solve [ reflexivity | lia | discriminate ].
Qed.

End ReportTable.

Lemma risk_color_witness :
  risk_color (score_sum (claim_subset Sample.scenario) Sample.ratio16)
  = "#EAB308"%string.
Proof.
  apply (proj1 (risk_color_needs_several_rules (claim_subset Sample.scenario)
                                               Sample.ratio16)).
  vm_compute. lia.
Defined.

(** ** The score distribution *)

Section Histogram.

Import Series.

Lemma value_counts_keys (s : list Z) : map fst (value_counts s) = nodup Z.eq_dec s.
Proof. unfold value_counts. rewrite map_map. cbn [fst]. apply map_id. Qed.

Lemma value_counts_In (s : list Z) (v : Z) (n : nat) :
  In (v, n) (value_counts s) <-> In v s /\ n = count_occ Z.eq_dec s v.
Proof.
  unfold value_counts. rewrite in_map_iff. split.
  - intros (x & E & Hx). injection E as -> <-.
    apply nodup_In in Hx. now split.
  - intros [Hv ->]. exists v. split; [reflexivity | now apply nodup_In].
Qed.

Lemma insert_by_index_perm (e : Z * nat) (h : list (Z * nat)) :
  Permutation (e :: h) (insert_by_index e h).
Proof.
  induction h as [|e' t IH]; cbn [insert_by_index]; [reflexivity|].
  destruct (fst e <=? fst e')%Z; [reflexivity|].
  rewrite perm_swap. now apply perm_skip.
Qed.

Lemma sort_index_perm (h : list (Z * nat)) : Permutation h (sort_index h).
Proof.
  induction h as [|e t IH]; cbn; [reflexivity|].
  rewrite <- insert_by_index_perm. now apply perm_skip.
Qed.

Lemma insert_by_index_sorted (e : Z * nat) (h : list (Z * nat)) :
  StronglySorted by_index h -> StronglySorted by_index (insert_by_index e h).
Proof.
  induction 1 as [|e' t Hs IH He']; cbn [insert_by_index]; [repeat constructor|].
  destruct (Z.leb_spec (fst e) (fst e')) as [L|L].
  - constructor; [now constructor|]. constructor; [exact L|].
    eapply Forall_impl; [|exact He']. unfold by_index. intros x Hx. lia.
  - constructor; [exact IH|].
    apply (Permutation_Forall (insert_by_index_perm e t)).
    constructor; [unfold by_index; lia | exact He'].
Qed.

Lemma sort_index_sorted (h : list (Z * nat)) : StronglySorted by_index (sort_index h).
Proof.
  induction h as [|e t IH]; cbn; [constructor | now apply insert_by_index_sorted].
Qed.

Lemma sorted_nodup_strict (l : list Z) :
  StronglySorted Z.le l -> NoDup l -> StronglySorted Z.lt l.
Proof.
  induction 1 as [|a t Hs IH Ha]; intro N; [constructor|].
  inversion N as [|? ? Hnot Nt]; subst.
  constructor; [now apply IH|].
  apply Forall_forall. intros x Hx.
  pose proof (proj1 (Forall_forall _ _) Ha x Hx).
  assert (x <> a) by (intros ->; contradiction). lia.
Qed.

Lemma sort_index_keys_increasing (h : list (Z * nat)) :
  NoDup (map fst h) -> StronglySorted Z.lt (map fst (sort_index h)).
Proof.
  intro N. apply sorted_nodup_strict.
  - pose proof (sort_index_sorted h) as Hs.
    induction Hs as [|e t Hs IH He]; cbn [map]; [constructor|].
    constructor; [exact IH|].
    apply Forall_forall. intros k Hk. apply in_map_iff in Hk.
    destruct Hk as (x & <- & Hx). exact (proj1 (Forall_forall _ _) He x Hx).
  - apply (Permutation_NoDup (Permutation_map fst (sort_index_perm h)) N).
Qed.

Lemma list_sum_step (x : nat) (l : list nat) :
  list_sum (x :: l) = (x + list_sum l)%nat.
Proof. reflexivity. Qed.

Lemma list_sum_zero {A} (l : list A) : list_sum (map (fun _ => 0%nat) l) = 0%nat.
Proof. induction l as [|x t IH]; [reflexivity | exact IH]. Qed.

Lemma list_sum_add {A} (f g : A -> nat) (l : list A) :
  list_sum (map (fun x => (f x + g x)%nat) l)
  = (list_sum (map f l) + list_sum (map g l))%nat.
Proof.
  induction l as [|x t IH]; [reflexivity|].
  cbn [map]. rewrite !list_sum_step, IH. lia.
Qed.

Lemma list_sum_indicator (a : Z) (ks : list Z) :
  list_sum (map (fun k => if Z.eq_dec a k then 1%nat else 0%nat) ks)
  = count_occ Z.eq_dec ks a.
Proof.
  induction ks as [|k t IH]; [reflexivity|].
  cbn [map count_occ]. rewrite list_sum_step, IH.
  destruct (Z.eq_dec a k) as [E|N], (Z.eq_dec k a) as [E'|N']; try lia; congruence.
Qed.

(** Over any duplicate-free list of keys that covers the column, the
    occurrence counts add up to the length of the column. *)
Lemma counts_add_up (s ks : list Z) :
  NoDup ks -> incl s ks ->
  list_sum (map (count_occ Z.eq_dec s) ks) = List.length s.
Proof.
  intros N. induction s as [|a t IH]; intro I.
  - cbn [count_occ List.length]. apply list_sum_zero.
  - assert (E : forall k, count_occ Z.eq_dec (a :: t) k
                          = ((if Z.eq_dec a k then 1 else 0) + count_occ Z.eq_dec t k)%nat).
    { intro k. cbn [count_occ]. now destruct (Z.eq_dec a k). }
    rewrite (map_ext _ _ E), list_sum_add, list_sum_indicator, IH.
    + rewrite (proj1 (NoDup_count_occ' Z.eq_dec ks) N a); [reflexivity|].
      apply I. now left.
    + intros x Hx. apply I. now right.
Qed.

Lemma value_counts_total (s : list Z) :
  list_sum (map snd (value_counts s)) = List.length s.
Proof.
  unfold value_counts. rewrite map_map. cbn [snd].
  apply counts_add_up; [apply NoDup_nodup|].
  intros x Hx. now apply nodup_In.
Qed.

Lemma list_sum_perm (l l' : list nat) : Permutation l l' -> list_sum l = list_sum l'.
Proof.
  induction 1; rewrite ?list_sum_step; lia.
Qed.

End Histogram.

(** X8.  The score distribution of the summary and of the report is the
    histogram of the positive scores: it lists every score that some flagged
    record has, once, in ascending order, each with the number of flagged
    records that have it; the scores listed lie between 1 and 10, no count
    is zero, and the counts add up to the number of flagged records. *)
Theorem score_distribution_is_histogram (d : DataFrame) :
  exists c fc th f scores dist,
    engine d = inr (c, fc, th)
    /\ flagged c = inr f
    /\ risk_score f = Some scores
    /\ score_distribution f = inr dist
    /\ StronglySorted Z.lt (map fst dist)
    /\ (forall s n, In (s, n) dist
                    <-> In s scores /\ n = count_occ Z.eq_dec scores s)
    /\ Forall (fun e => (1 <= fst e <= 10)%Z /\ (0 < snd e)%nat) dist
    /\ list_sum (map snd dist) = List.length (rows f).
Proof.
  set (cs := claim_subset d).
  destruct (flagged_assessed d) as (f & Hf & Hrows & Hs). fold cs in Hrows, Hs.
  set (scores := map (score_sum cs) (filter (fun r => (0 <? score_sum cs r)%Z) cs)) in *.
  assert (He : engine d = inr (assessed d, counted d, computed_thresholds d))
    by apply engine_assessed.
  assert (Hsc : scores = map (score_sum cs) (rows f)) by now rewrite Hrows.
  assert (Hpos : Forall (fun s => (0 < s <= 10)%Z) scores).
  { apply Forall_forall. intros s Hin. apply in_map_iff in Hin.
    destruct Hin as (r & <- & Hr). apply filter_In in Hr. destruct Hr as [_ Hr].
    apply Z.ltb_lt in Hr. pose proof (score_sum_range cs r). lia. }
  exists (assessed d), (counted d), (computed_thresholds d), f, scores,
         (Series.sort_index (Series.value_counts scores)).
  split; [exact He|]. split; [exact Hf|]. split; [exact Hs|].
  split; [unfold score_distribution; now rewrite Hs|].
  assert (Hin : forall s n,
             In (s, n) (Series.sort_index (Series.value_counts scores))
             <-> In s scores /\ n = count_occ Z.eq_dec scores s).
  { intros s n. rewrite <- value_counts_In. split; intro H.
    - now apply (Permutation_in _ (Permutation_sym (sort_index_perm _))).
    - now apply (Permutation_in _ (sort_index_perm _)). }
  split.
  { apply sort_index_keys_increasing. rewrite value_counts_keys. apply NoDup_nodup. }
  split; [exact Hin|]. split.
  - apply Forall_forall. intros [s n] He'. apply Hin in He'. destruct He' as [Hs' ->].
    cbn [fst snd]. split.
    + pose proof (proj1 (Forall_forall _ _) Hpos s Hs'). cbn beta in *. lia.
    + now apply count_occ_In.
  - rewrite <- (list_sum_perm _ _ (Permutation_map snd (sort_index_perm _))).
    rewrite value_counts_total, Hsc. apply length_map.
Qed.

(** ** Running the summary *)

Section ScriptStepping.

Context {A B : Type}.

Lemma script_new (d : DataFrame) (k : Py.ref -> Script.M B) (w : Py.World) :
  Script.bind (Script.lift (Py.new d)) k w = k (Py.next w) (Py.alloc d w).
Proof. reflexivity. Qed.

Lemma script_print (s : string) (k : unit -> Script.M B) (w : Py.World) :
  Script.bind (Script.lift (Py.print s)) k w = k tt (Py.emit s w).
Proof. reflexivity. Qed.

Lemma script_inspect (r : Py.ref) (f : DataFrame -> Py.exn + A)
      (k : A -> Script.M B) (w : Py.World) (d : DataFrame) (a : A) :
  Py.heap w r = Some d -> f d = inr a ->
  Script.bind (Script.lift (Py.inspect r f)) k w = k a w.
Proof.
  intros Hr Hf. unfold Script.bind, Script.lift, Py.inspect. now rewrite Hr, Hf.
Qed.

Lemma script_inspect_raises (r : Py.ref) (f : DataFrame -> Py.exn + A)
      (k : A -> Script.M B) (w : Py.World) (d : DataFrame) (e : Py.exn) :
  Py.heap w r = Some d -> f d = inl e ->
  Script.bind (Script.lift (Py.inspect r f)) k w = (inl (Script.Raised e), w).
Proof.
  intros Hr Hf. unfold Script.bind, Script.lift, Py.inspect. now rewrite Hr, Hf.
Qed.

Lemma script_for_each_print (l : list A) (g : A -> string)
      (k : unit -> Script.M B) (w : Py.World) :
  Script.bind (Script.for_each l (fun x => Script.lift (Py.print (g x)))) k w
  = k tt (Script.emit_all (map g l) w).
Proof.
  revert w. induction l as [|x t IH]; intro w; [reflexivity|].
  cbn [Script.for_each map Script.emit_all fold_left].
  change (Script.bind
            (Script.bind (Script.lift (Py.print (g x)))
                         (fun _ => Script.for_each t (fun x => Script.lift (Py.print (g x)))))
            k w)
    with (Script.bind (Script.for_each t (fun x => Script.lift (Py.print (g x))))
                      k (Py.emit (g x) w)).
  apply IH.
Qed.

End ScriptStepping.

Lemma emit_all_heap (lines : list string) (w : Py.World) :
  Py.heap (Script.emit_all lines w) = Py.heap w
  /\ Py.next (Script.emit_all lines w) = Py.next w
  /\ Py.stdout (Script.emit_all lines w) = (Py.stdout w ++ lines)%list.
Proof.
  revert w. induction lines as [|s t IH]; intro w.
  - cbn. now rewrite app_nil_r.
  - cbn [Script.emit_all fold_left]. destruct (IH (Py.emit s w)) as (H1 & H2 & H3).
    unfold Script.emit_all in *. rewrite H1, H2, H3. cbn [Py.heap Py.next Py.stdout Py.emit].
    now rewrite <- app_assoc.
Qed.

Section SummaryRun.

Variable fixed1 : Q -> string.
Variable money : option Q -> string.
Variable money_threshold : option Num.Threshold -> string.

Variable w : Py.World.
Variable claims : Py.ref.
Variable c : DataFrame.
Variable total : nat.
Variable fc : FlagCounts.
Variable th : Thresholds.

Hypothesis w_wf : Py.wf w.
Hypothesis claims_live : Py.heap w claims = Some c.

Lemma claims_below_next : claims <> Py.next w.
Proof. pose proof (w_wf claims c claims_live). lia. Qed.

Ltac look :=
  cbn [Py.heap Py.next Py.alloc Py.emit];
  first [ apply upd_same
        | rewrite upd_other by apply claims_below_next; exact claims_live ].

Ltac sstep :=
  first [ rewrite script_new
        | rewrite script_print
        | rewrite script_for_each_print
        | erewrite script_inspect; [ | look | reflexivity ] ].

Lemma select_nil {X} (mask : list bool) : Pd.select mask (@nil X) = [].
Proof. now destruct mask. Qed.

Lemma script_true_div (a b : nat) {B} (k : Q -> Script.M B) (w0 : Py.World) :
  b <> 0%nat ->
  Script.bind (Script.true_div a b) k w0
  = k (inject_Z (Z.of_nat a) / inject_Z (Z.of_nat b)) w0.
Proof. intro H. destruct b; [congruence | reflexivity]. Qed.

Ltac world_facts :=
  repeat (cbn [Py.heap Py.next Py.stdout Py.alloc Py.emit];
          rewrite ?(proj1 (emit_all_heap _ _)),
                  ?(proj1 (proj2 (emit_all_heap _ _))),
                  ?(proj2 (proj2 (emit_all_heap _ _)))).

(** The summary on a frame that has its [risk_score] column. *)
Lemma print_summary_run :
  forall scores,
      risk_score c = Some scores ->
      let positive := Pd.select (map (fun s => (0 <? s)%Z) scores) scores in
      let dist := Series.sort_index (Series.value_counts positive) in
      (rows c = [] ->
       exists w',
         print_summary fixed1 money money_threshold total claims fc th w
         = (inl Script.ZeroDivisionError, w')
         /\ Py.stdout w'
            = (Py.stdout w
                 ++ [rule_line "="%char;
                     "  AUTO INSURANCE FRAUD / ANOMALY DETECTION — SUMMARY"%string;
                     rule_line "="%char;
                     ("  Total records in dataset      : " ++ Fmt.thousands total)%string;
                     "  Total claims analysed          : 0"%string;
                     "  Unique customers flagged       : 0"%string])%list
         /\ Py.heap w' claims = Some c
         /\ forall r, r <> Py.next w -> Py.heap w' r = Py.heap w r)
      /\ (rows c <> [] ->
          exists w',
            print_summary fixed1 money money_threshold total claims fc th w
            = (inr tt, w')
            /\ List.length (Py.stdout w')
               = (List.length (Py.stdout w) + 18 + List.length fc
                  + List.length dist + List.length (age_group_thresholds th))%nat
            /\ Py.heap w' claims = Some c
            /\ forall r, r <> Py.next w -> Py.heap w' r = Py.heap w r).
Proof.
  intros scores Hs positive dist. split; intro Hr; unfold print_summary.
  - eexists. split.
    + erewrite script_inspect;
        [ | exact claims_live | unfold flagged; rewrite Hs; reflexivity ].
      sstep.
      erewrite script_inspect;
        [ | look
          | unfold score_distribution;
            cbn [risk_score Pd.getitem_mask option_map]; rewrite Hs; reflexivity ].
      do 10 sstep. rewrite Hr. reflexivity.
    + cbn [Py.heap Py.next Py.stdout Py.alloc Py.emit Pd.getitem_mask rows].
      rewrite Hr, select_nil.
      split; [now rewrite <- !app_assoc|].
      split; [rewrite upd_other by apply claims_below_next; exact claims_live|].
      intros r N. now apply upd_other.
  - eexists. split.
    + erewrite script_inspect;
        [ | exact claims_live | unfold flagged; rewrite Hs; reflexivity ].
      sstep.
      erewrite script_inspect;
        [ | look
          | unfold score_distribution;
            cbn [risk_score Pd.getitem_mask option_map]; rewrite Hs; reflexivity ].
      do 10 sstep.
      rewrite script_true_div by (destruct (rows c); [congruence | discriminate]).
      do 14 sstep. reflexivity.
    + world_facts.
      split; [rewrite !length_app, !length_map; cbn [List.length]; fold positive; fold dist; lia|].
      split; [rewrite upd_other by apply claims_below_next; exact claims_live|].
      intros r N. now apply upd_other.
Qed.

(** X9.  [print_summary] raises [KeyError] at once, with nothing printed,
    when the frame lacks the column [risk_score]; it raises
    [ZeroDivisionError] when the frame has no row, after six lines are
    printed, the flag rate being [len(flagged) / len(claims)]; otherwise it
    returns, having printed 18 lines and one more for each trigger count,
    each score of the distribution and each band threshold.  It allocates
    the flagged view and changes no object alive before the call. *)
Theorem print_summary_divides_by_the_claim_count :
  (risk_score c = None ->
   print_summary fixed1 money money_threshold total claims fc th w
   = (inl (Script.Raised (Py.KeyError "risk_score")), w))
  /\ forall scores,
      risk_score c = Some scores ->
      let positive := Pd.select (map (fun s => (0 <? s)%Z) scores) scores in
      let dist := Series.sort_index (Series.value_counts positive) in
      (rows c = [] ->
       exists w',
         print_summary fixed1 money money_threshold total claims fc th w
         = (inl Script.ZeroDivisionError, w')
         /\ Py.stdout w'
            = (Py.stdout w
                 ++ [rule_line "="%char;
                     "  AUTO INSURANCE FRAUD / ANOMALY DETECTION — SUMMARY"%string;
                     rule_line "="%char;
                     ("  Total records in dataset      : " ++ Fmt.thousands total)%string;
                     "  Total claims analysed          : 0"%string;
                     "  Unique customers flagged       : 0"%string])%list
         /\ Py.heap w' claims = Some c
         /\ forall r, r <> Py.next w -> Py.heap w' r = Py.heap w r)
      /\ (rows c <> [] ->
          exists w',
            print_summary fixed1 money money_threshold total claims fc th w
            = (inr tt, w')
            /\ List.length (Py.stdout w')
               = (List.length (Py.stdout w) + 18 + List.length fc
                  + List.length dist + List.length (age_group_thresholds th))%nat
            /\ Py.heap w' claims = Some c
            /\ forall r, r <> Py.next w -> Py.heap w' r = Py.heap w r).
Proof.
  split.
  - intro Hs. unfold print_summary.
    erewrite script_inspect_raises;
      [reflexivity | exact claims_live | unfold flagged; now rewrite Hs].
  - intros scores Hs. cbv zeta.
    destruct (print_summary_run scores Hs) as [Hempty Hsome].
    split; [exact Hempty | exact Hsome].
Qed.

End SummaryRun.

Section AfterEngine.

Variable fixed1 : Q -> string.
Variable money : option Q -> string.
Variable money_threshold : option Num.Threshold -> string.

Lemma script_lift_returns {A B} (m : Py.M A) (k : A -> Script.M B)
      (w w' : Py.World) (a : A) :
  m w = (inr a, w') -> Script.bind (Script.lift m) k w = k a w'.
Proof. intro H. unfold Script.bind, Script.lift. now rewrite H. Qed.

(** X10.  The engine followed by the summary, as [main] calls them, fails
    with [ZeroDivisionError] exactly on a dataset without a claim, the empty
    dataset included: the engine returns, its line and the first six lines
    of the summary are printed, and the flag rate divides by zero.  On a
    dataset with a claim the summary returns.  The dataset is unchanged in
    either case. *)
Theorem summary_after_engine_needs_a_claim
        (w : Py.World) (df : Py.ref) (d : DataFrame) :
  Py.wf w ->
  Py.heap w df = Some d ->
  exists w',
    analyse_and_summarise fixed1 money money_threshold df w
    = (match claim_subset d with
       | [] => inl Script.ZeroDivisionError
       | _ :: _ => inr tt
       end, w')
    /\ Py.heap w' df = Some d
    /\ (claim_subset d = [] ->
        Py.stdout w'
        = (Py.stdout w
             ++ [claims_message 0;
                 rule_line "="%char;
                 "  AUTO INSURANCE FRAUD / ANOMALY DETECTION — SUMMARY"%string;
                 rule_line "="%char;
                 ("  Total records in dataset      : "
                    ++ Fmt.thousands (List.length (rows d)))%string;
                 "  Total claims analysed          : 0"%string;
                 "  Unique customers flagged       : 0"%string])%list).
Proof.
  intros Hwf Hdf.
  destruct (apply_rules_run w df d Hdf) as (w1 & Hrun & Hclaims & Hframe & Hout & Hnext).
  assert (Hwf1 : Py.wf w1).
  { intros r d0 Hr. rewrite Hnext.
    destruct (Nat.eq_dec r (Py.next w)) as [->|N1]; [lia|].
    destruct (Nat.eq_dec r (S (Py.next w))) as [->|N2]; [lia|].
    rewrite (Hframe r N1 N2) in Hr. pose proof (Hwf r d0 Hr). lia. }
  assert (Hdf1 : Py.heap w1 df = Some d).
  { pose proof (Hwf df d Hdf). rewrite Hframe; [exact Hdf | lia | lia]. }
  pose proof (print_summary_run
                fixed1 money money_threshold w1 (S (Py.next w)) (assessed d)
                (List.length (rows d)) (counted d) (computed_thresholds d)
                Hwf1 Hclaims _ eq_refl) as Hsum.
  cbv zeta in Hsum. destruct Hsum as [Hempty Hsome].
  unfold analyse_and_summarise.
  erewrite script_inspect; [ | exact Hdf | reflexivity ].
  rewrite (script_lift_returns _ _ _ _ _ Hrun). cbn [fst snd].
  cbn [rows assessed] in Hempty, Hsome.
  destruct (claim_subset d) as [|r0 t] eqn:Ecs.
  - destruct (Hempty eq_refl) as (w' & Hp & Hstd & _ & Hfr).
    exists w'. split; [exact Hp|]. split.
    + rewrite Hfr; [exact Hdf1|]. rewrite Hnext. pose proof (Hwf df d Hdf). lia.
    + intros _. rewrite Hstd, Hout. cbn [List.length]. now rewrite <- app_assoc.
  - destruct Hsome as (w' & Hp & _ & _ & Hfr); [discriminate|].
    exists w'. split; [exact Hp|]. split; [|discriminate].
    rewrite Hfr; [exact Hdf1|]. rewrite Hnext. pose proof (Hwf df d Hdf). lia.
Qed.

End AfterEngine.

Lemma print_summary_witness :
  exists w',
    print_summary Render.fraction Render.float Render.threshold 1%nat 0%nat
                  (counted (frame_of [Sample.no_claim]))
                  (computed_thresholds (frame_of [Sample.no_claim]))
                  (loaded (assessed (frame_of [Sample.no_claim])))
    = (inl Script.ZeroDivisionError, w').
Proof.
  destruct (print_summary_divides_by_the_claim_count
              Render.fraction Render.float Render.threshold
              (loaded (assessed (frame_of [Sample.no_claim]))) 0%nat
              (assessed (frame_of [Sample.no_claim])) 1%nat
              (counted (frame_of [Sample.no_claim]))
              (computed_thresholds (frame_of [Sample.no_claim])))
    as [_ H].
  - intros r d0. destruct r; cbn; [lia | intro E; discriminate E].
  - reflexivity.
  - destruct (H [] eq_refl) as [He _].
    destruct (He eq_refl) as (w' & Hp & _). now exists w'.
Defined.

Lemma summary_after_engine_witness :
  exists w',
    analyse_and_summarise Render.fraction Render.float Render.threshold 0%nat
                          (loaded (frame_of [Sample.no_claim]))
    = (inl Script.ZeroDivisionError, w').
Proof.
  destruct (summary_after_engine_needs_a_claim
              Render.fraction Render.float Render.threshold
              (loaded (frame_of [Sample.no_claim])) 0%nat (frame_of [Sample.no_claim]))
    as (w' & H & _).
  - intros r d0. destruct r; cbn; [lia | intro E; discriminate E].
  - reflexivity.
  - now exists w'.
Defined.

(** * The mock-data generator *)

(** ** Rounding *)

Lemma round_half_even_error (x : Q) :
  x - (1 # 2) <= inject_Z (MockData.round_half_even x) <= x + (1 # 2).
Proof.
  unfold MockData.round_half_even. cbv zeta.
  pose proof (Qfloor_le x) as L. pose proof (Qlt_floor x) as U.
  rewrite inject_Z_plus in U. change (inject_Z 1) with 1 in U.
  destruct (Qcompare (x - inject_Z (Qfloor x)) (1 # 2)) eqn:E.
  - apply Qeq_alt in E. destruct (Z.even (Qfloor x)).
    + lra.
    + rewrite inject_Z_plus. change (inject_Z 1) with 1. lra.
  - apply Qlt_alt in E. lra.
  - apply Qgt_alt in E. rewrite inject_Z_plus. change (inject_Z 1) with 1. lra.
Qed.

Lemma inject_Z_step (a b : Z) : (a < b)%Z -> inject_Z a + 1 <= inject_Z b.
Proof.
  intro H. change 1 with (inject_Z 1). rewrite <- inject_Z_plus, <- Zle_Qle. lia.
Qed.

Lemma round_half_even_between (x : Q) (lo hi : Z) :
  inject_Z lo <= x <= inject_Z hi ->
  (lo <= MockData.round_half_even x <= hi)%Z.
Proof.
  intros [L U]. pose proof (round_half_even_error x) as [E1 E2].
  split.
  - destruct (Z_lt_le_dec (MockData.round_half_even x) lo) as [H|H]; [|exact H].
    apply inject_Z_step in H. lra.
  - destruct (Z_lt_le_dec hi (MockData.round_half_even x)) as [H|H]; [|exact H].
    apply inject_Z_step in H. lra.
Qed.


(** ** Ranges of a generated record *)

Section GeneratedRanges.

Import Generator.

Lemma Qltb_ge (x y : Q) : Num.Qltb x y = false <-> y <= x.
Proof.
  unfold Num.Qltb. rewrite negb_false_iff. apply Qle_bool_iff.
Qed.

Lemma clip_range (x lo hi : Q) : lo <= hi -> lo <= clip x lo hi <= hi.
Proof.
  intro H. unfold clip, minimum, maximum.
  destruct (Num.Qltb x lo) eqn:E1.
  - destruct (Num.Qltb hi lo) eqn:E2.
    + apply Qltb_lt in E2. lra.
    + lra.
  - apply Qltb_ge in E1. destruct (Num.Qltb hi x) eqn:E2.
    + lra.
    + apply Qltb_ge in E2. lra.
Qed.

Lemma clip_inside (x lo hi : Q) : lo <= x <= hi -> clip x lo hi = x.
Proof.
  intros [L U]. unfold clip, minimum, maximum.
  rewrite (proj2 (Qltb_ge x lo) L). now rewrite (proj2 (Qltb_ge hi x) U).
Qed.

Lemma round2_range (x : Q) (lo hi : Z) :
  inject_Z lo <= x <= inject_Z hi -> inject_Z lo <= round2 x <= inject_Z hi.
Proof.
  intros [L U]. unfold round2.
  destruct (round_half_even_between (x * 100) (lo * 100) (hi * 100)) as [A B].
  { rewrite !inject_Z_mult. change (inject_Z 100) with 100. lra. }
  rewrite Zle_Qle in A, B. rewrite inject_Z_mult in A, B.
  change (inject_Z 100) with 100 in A, B.
  set (k := inject_Z (MockData.round_half_even (x * 100))) in *. clearbody k.
  split; [apply Qle_shift_div_l | apply Qle_shift_div_r]; lra.
Qed.

Lemma round4_range (x : Q) (lo hi : Z) :
  inject_Z lo <= x <= inject_Z hi -> inject_Z lo <= MockData.round4 x <= inject_Z hi.
Proof.
  intros [L U]. unfold MockData.round4.
  destruct (round_half_even_between (x * 10000) (lo * 10000) (hi * 10000)) as [A B].
  { rewrite !inject_Z_mult. change (inject_Z 10000) with 10000. lra. }
  rewrite Zle_Qle in A, B. rewrite inject_Z_mult in A, B.
  change (inject_Z 10000) with 10000 in A, B.
  set (k := inject_Z (MockData.round_half_even (x * 10000))) in *. clearbody k.
  split; [apply Qle_shift_div_l | apply Qle_shift_div_r]; lra.
Qed.

Lemma round4_error (x : Q) :
  x - (1 # 20000) <= MockData.round4 x <= x + (1 # 20000).
Proof.
  unfold MockData.round4.
  pose proof (round_half_even_error (x * 10000)) as [A B].
  set (k := inject_Z (MockData.round_half_even (x * 10000))) in *. clearbody k.
  split; [apply Qle_shift_div_l | apply Qle_shift_div_r]; lra.
Qed.

Lemma astype_int_floor (x : Q) : 0 <= x -> astype_int x = Qfloor x.
Proof.
  intro H. unfold astype_int, Qfloor. destruct x as [n d].
  apply Z.quot_div_nonneg; [|lia].
  unfold Qle in H. cbn in H. lia.
Qed.

Variable id : Z.
Variable x : Draws.

Lemma generated_age_range : (18 <= age_of x <= 75)%Z.
Proof.
  unfold age_of.
  destruct (clip_range (normal_age x) 18 75) as [L U]; [discriminate|].
  rewrite astype_int_floor by lra.
  split.
  - apply Qfloor_resp_le in L. exact L.
  - apply Qfloor_resp_le in U. exact U.
Qed.

Lemma generated_premium_range : 500 <= annual_premium_of x <= 5000.
Proof.
  unfold annual_premium_of.
  apply (round2_range _ 500 5000). apply clip_range. discriminate.
Qed.

Lemma generated_loss_range : 0 <= total_loss_of x <= 80000.
Proof.
  unfold total_loss_of.
  apply (round2_range _ 0 80000). apply clip_range. discriminate.
Qed.

Lemma generated_quotient_range :
  0 <= total_loss_of x / annual_premium_of x <= 160.
Proof.
  pose proof generated_premium_range as [P1 P2].
  pose proof generated_loss_range as [L1 L2].
  split; [apply Qle_shift_div_l | apply Qle_shift_div_r]; lra.
Qed.

(** X11.  Whatever the random draws are, a generated record has an age
    between 18 and 75, hence an age band; an annual premium between 500 and
    5000, hence positive; a total loss between 0 and 80000, zero when no
    claim was drawn; and its loss ratio is the quotient of loss and premium
    rounded to four decimals, the guard for a non-positive premium never
    deciding, within 0.00005 of the quotient and between 0 and 160. *)
Theorem generated_record_is_within_range :
  let r := row id x in
  (18 <= age r <= 75)%Z
  /\ (exists b, band r = Some b)
  /\ 500 <= annual_premium r <= 5000
  /\ 0 <= total_loss r <= 80000
  /\ (claim_drawn x = false -> total_loss r == 0)
  /\ loss_ratio r = MockData.round4 (total_loss r / annual_premium r)
  /\ total_loss r / annual_premium r - (1 # 20000) <= loss_ratio r
     <= total_loss r / annual_premium r + (1 # 20000)
  /\ 0 <= loss_ratio r <= 160.
Proof.
  cbv zeta. cbn [row age annual_premium total_loss loss_ratio].
  pose proof generated_age_range as Ha.
  pose proof generated_premium_range as Hp.
  assert (E : MockData.loss_ratio (annual_premium_of x) (total_loss_of x)
              = MockData.round4 (total_loss_of x / annual_premium_of x)).
  { unfold MockData.loss_ratio.
    now rewrite (proj2 (Qltb_lt 0 (annual_premium_of x))) by lra. }
  split; [exact Ha|]. split.
  { unfold band. cbn [row age].
    destruct (Pd.cut bins labels (age_of x)) as [b|] eqn:Eb; [now exists b|].
    apply cut_age_outside in Eb. lia. }
  split; [exact Hp|]. split; [apply generated_loss_range|]. split.
  { intro Hc. unfold total_loss_of, claim_amount. rewrite Hc. reflexivity. }
  split; [exact E|]. rewrite E. split; [apply round4_error|].
  apply (round4_range _ 0 160). apply generated_quotient_range.
Qed.

End GeneratedRanges.

Section GeneratedClaims.

Import Generator.

(** X12.  For a car model year between 2000 and 2025 the clip of the claim
    probability never decides: the probability is the base 0.28 plus the age
    and car-age adjustments, as computed, and lies between 0.28 and 0.555,
    inside the clip bounds 0.05 and 0.70. *)
Theorem claim_prob_is_never_clipped (x : Draws) :
  (2000 <= year_choice x <= 2025)%Z ->
  claim_prob x = claim_base_prob + age_claim_adj (age_of x) + car_claim_adj x
  /\ 0.28 <= claim_prob x <= 0.555.
Proof.
  intro Hy.
  assert (Ha : 0 <= age_claim_adj (age_of x) <= 0.15).
  { unfold age_claim_adj.
    repeat match goal with
           | |- context [(?a <? ?b)%Z] => destruct (a <? b)%Z
           end; split; discriminate. }
  assert (Hc : 0 <= car_claim_adj x <= 0.125).
  { unfold car_claim_adj, car_age.
    assert (A : inject_Z 0 <= inject_Z (2025 - year_choice x) <= inject_Z 25)
      by (split; rewrite <- Zle_Qle; lia).
    change (inject_Z 0) with 0 in A. change (inject_Z 25) with 25 in A.
    set (k := inject_Z (2025 - year_choice x)) in *. clearbody k. lra. }
  assert (Hs : 0.05 <= claim_base_prob + age_claim_adj (age_of x) + car_claim_adj x
               <= 0.70).
  { unfold claim_base_prob. lra. }
  unfold claim_prob. rewrite (clip_inside _ _ _ Hs).
  split; [reflexivity|]. unfold claim_base_prob. lra.
Qed.

Lemma claim_prob_witness :
  0.28 <= claim_prob sample <= 0.555.
Proof.
  apply (claim_prob_is_never_clipped sample). cbn. lia.
Defined.




End GeneratedClaims.

(** * The dashboard data and the report scripts *)

(** ** From the generator to the JSON rows and back *)





(** ** The chatbot's top claims *)

Section TopClaims.

Import Chatbot.

Lemma insert_desc_perm (x : PolicyRecord) (l : list PolicyRecord) :
  Permutation (x :: l) (insert_desc x l).
Proof.
  induction l as [|y t IH]; cbn; [reflexivity|].
  destruct (Qle_bool (total_loss y) (total_loss x)); [reflexivity|].
  rewrite perm_swap. now apply perm_skip.
Qed.

Lemma sorted_by_loss_desc_perm (l : list PolicyRecord) :
  Permutation l (sorted_by_loss_desc l).
Proof.
  induction l as [|x t IH]; cbn; [reflexivity|].
  rewrite <- insert_desc_perm. now apply perm_skip.
Qed.

Lemma insert_desc_sorted (x : PolicyRecord) (l : list PolicyRecord) :
  StronglySorted (fun a b => total_loss b <= total_loss a) l ->
  StronglySorted (fun a b => total_loss b <= total_loss a) (insert_desc x l).
Proof.
  induction 1 as [|y t St IH Hy]; cbn.
  - constructor; constructor.
  - destruct (Qle_bool (total_loss y) (total_loss x)) eqn:E.
    + apply Qle_bool_iff in E. constructor; [now constructor|].
      constructor; [exact E|].
      rewrite Forall_forall in Hy |- *. intros z Hz.
      specialize (Hy z Hz). cbv beta in Hy. lra.
    + assert (Hlt : total_loss x < total_loss y).
      { apply Qnot_le_lt. intro H. apply Qle_bool_iff in H. congruence. }
      constructor; [exact IH|].
      rewrite Forall_forall in Hy |- *. intros z Hz.
      apply (Permutation_in _ (Permutation_sym (insert_desc_perm x t))) in Hz.
      destruct Hz as [<-|Hz]; [lra | now apply Hy].
Qed.

Lemma sorted_by_loss_desc_sorted (l : list PolicyRecord) :
  StronglySorted (fun a b => total_loss b <= total_loss a) (sorted_by_loss_desc l).
Proof.
  induction l as [|x t IH]; cbn; [constructor | now apply insert_desc_sorted].
Qed.

Lemma insert_desc_stable (v : Q) (x : PolicyRecord) (l : list PolicyRecord) :
  filter (fun r => Qeq_bool (total_loss r) v) (insert_desc x l)
  = filter (fun r => Qeq_bool (total_loss r) v) (x :: l).
Proof.
  induction l as [|y t IH]; [reflexivity|].
  cbn [insert_desc].
  destruct (Qle_bool (total_loss y) (total_loss x)) eqn:E; [reflexivity|].
  assert (Hlt : total_loss x < total_loss y).
  { apply Qnot_le_lt. intro H. apply Qle_bool_iff in H. congruence. }
  cbn [filter] in IH |- *. rewrite IH.
  destruct (Qeq_bool (total_loss x) v) eqn:Ex; [|reflexivity].
  destruct (Qeq_bool (total_loss y) v) eqn:Ey; [|reflexivity].
  apply Qeq_bool_iff in Ex, Ey. lra.
Qed.

Lemma sorted_by_loss_desc_stable (v : Q) (l : list PolicyRecord) :
  filter (fun r => Qeq_bool (total_loss r) v) (sorted_by_loss_desc l)
  = filter (fun r => Qeq_bool (total_loss r) v) l.
Proof.
  induction l as [|x t IH]; [reflexivity|].
  cbn [sorted_by_loss_desc fold_right].
  fold (sorted_by_loss_desc t). rewrite insert_desc_stable.
  cbn [filter]. now rewrite IH.
Qed.

(** X15. The chatbot's [top_claims] are the 20 largest losses: the list has
    [min 20 n] records, together with the records it leaves out it is a
    rearrangement of all records, its losses descend, no record left out has
    a larger loss than one kept, and records of equal loss stay in the order
    of the data, in the list and across its cut. *)
Theorem top_claims_are_the_largest_losses (records : list PolicyRecord) :
  let rest := skipn 20 (sorted_by_loss_desc records) in
  List.length (top_claims records) = Nat.min 20 (List.length records)
  /\ Permutation records (top_claims records ++ rest)
  /\ StronglySorted (fun a b => total_loss b <= total_loss a) (top_claims records)
  /\ (forall kept dropped, In kept (top_claims records) -> In dropped rest ->
        total_loss dropped <= total_loss kept)
  /\ (forall v, filter (fun r => Qeq_bool (total_loss r) v) (top_claims records ++ rest)
                = filter (fun r => Qeq_bool (total_loss r) v) records).
Proof.
  cbv zeta. unfold top_claims.
  pose proof (sorted_by_loss_desc_perm records) as P.
  pose proof (sorted_by_loss_desc_sorted records) as S.
  set (s := sorted_by_loss_desc records) in *.
  split.
  { rewrite length_firstn, <- (Permutation_length P). reflexivity. }
  split; [now rewrite firstn_skipn|].
  rewrite <- (firstn_skipn 20 s) in S.
  split.
  { clear P. revert S. generalize (firstn 20 s) as a, (skipn 20 s) as b.
    induction a as [|y a IH]; intros b S; [constructor|].
    cbn in S. inversion S as [|? ? S' F]; subst.
    constructor; [now apply (IH b)|].
    rewrite Forall_app in F. tauto. }
  split.
  { clear P. revert S. generalize (firstn 20 s) as a, (skipn 20 s) as b.
    induction a as [|y a IH]; intros b S kept dropped Hk Hd; [destruct Hk|].
    cbn in S. inversion S as [|? ? S' F]; subst.
    destruct Hk as [<-|Hk]; [|now apply (IH b)].
    rewrite Forall_app, !Forall_forall in F. now apply F. }
  intro v. rewrite firstn_skipn. apply sorted_by_loss_desc_stable.
Qed.

End TopClaims.

(** ** The aggregation of the report *)

Section Partition.

Context {A K : Type} (eqb : K -> K -> bool).
Hypothesis eqb_spec : forall a b, eqb a b = true <-> a = b.
Variable f : A -> K.
Variable keys : list K.
Hypothesis keys_nodup : NoDup keys.
Hypothesis keys_cover : forall x, In (f x) keys.

Lemma eqb_absent (c : K) (ks : list K) (k : K) :
  ~ In c ks -> In k ks -> eqb c k = false.
Proof.
  intros N I. destruct (eqb c k) eqn:E; [|reflexivity].
  apply eqb_spec in E. now subst.
Qed.









End Partition.

Section ReportAggregation.

Import Report.





Lemma Gender_eqb_spec (a b : Gender) : Gender_eqb a b = true <-> a = b.
Proof. destruct a, b; cbn; split; congruence. Qed.



Lemma of_nat_zero (n : nat) : Qeq_bool (of_nat n) 0 = true <-> n = 0%nat.
Proof.
  rewrite Qeq_bool_iff. unfold of_nat, Qeq. cbn. lia.
Qed.

Lemma div_by_nat (a : Q) (n : nat) :
  div a (of_nat n)
  = match n with 0%nat => inl Script.ZeroDivisionError | _ => inr (a / of_nat n) end.
Proof.
  unfold div. destruct (Qeq_bool (of_nat n) 0) eqn:E.
  - apply of_nat_zero in E. now subst.
  - destruct n; [|reflexivity]. discriminate E.
Qed.

Lemma total_nil_premium (data : list Policy) :
  Qeq_bool (total premium data) 0 = false -> data <> [].
Proof. intros E ->. discriminate E. Qed.

Lemma group_nonempty (g : Gender) (data : list Policy) :
  filter (fun d => Gender_eqb (gender d) g) data <> []
  <-> exists d, In d data /\ gender d = g.
Proof.
  split.
  - destruct (filter _ data) as [|d t] eqn:E; [congruence|]. intros _.
    assert (I : In d (filter (fun d => Gender_eqb (gender d) g) data))
      by (rewrite E; now left).
    apply filter_In in I. exists d. now rewrite <- Gender_eqb_spec.
  - intros (d & I & E) N.
    assert (I' : In d (filter (fun d => Gender_eqb (gender d) g) data)).
    { apply filter_In. now rewrite Gender_eqb_spec. }
    rewrite N in I'. destruct I'.
Qed.

(** What [kpis] returns. *)
Lemma kpis_run (data : list Policy) :
  match kpis data with
  | inl e => e = Script.ZeroDivisionError /\ total premium data == 0
  | inr k => ~ total premium data == 0
             /\ total_policies k = List.length data
             /\ total_premium k = total premium data
             /\ total_loss k = total loss data
             /\ claims_count k = count_claims data
             /\ loss_ratio k = total loss data / total premium data
  end.
Proof.
  unfold kpis. cbv zeta. unfold div at 1.
  destruct (Qeq_bool (total premium data) 0) eqn:E.
  - apply Qeq_bool_iff in E. now split.
  - pose proof (total_nil_premium data E) as N.
    rewrite !div_by_nat. destruct data as [|d t]; [congruence|].
    cbn [List.length]. repeat split.
    intro H. apply Qeq_bool_iff in H. congruence.
Qed.

(** What [gender_stats] returns. *)
Lemma gender_stats_run (data : list Policy) (g : Gender) :
  let rows := filter (fun d => Gender_eqb (gender d) g) data in
  match gender_stats data g with
  | inl e => e = Script.ZeroDivisionError /\ rows = []
  | inr s => rows <> []
             /\ gender_count s = List.length rows
             /\ gender_premium s = total premium rows
             /\ gender_loss s = total loss rows
  end.
Proof.
  cbv zeta. unfold gender_stats. cbv zeta. rewrite !div_by_nat.
  destruct (filter _ data) as [|d t]; cbn [List.length]; [now split|].
  repeat split. congruence.
Qed.

(** X16. The aggregation of the report returns exactly on data whose total
    premium is not zero and which holds a policy of each gender; on any other
    data (the empty list included) it raises [ZeroDivisionError], from the
    overall loss ratio or from the average premium of a gender without
    policies. An age group or car era without policies raises nothing. *)
Theorem aggregate_needs_premium_and_both_genders (data : list Policy) :
  let ok := ~ total premium data == 0
            /\ (exists d, In d data /\ gender d = Male)
            /\ (exists d, In d data /\ gender d = Female) in
  ((exists agg, aggregate data = inr agg) <-> ok)
  /\ (aggregate data = inl Script.ZeroDivisionError <-> ~ ok).
Proof.
  cbv zeta. unfold aggregate. cbv zeta.
  pose proof (kpis_run data) as Hk.
  pose proof (gender_stats_run data Male) as Hm.
  pose proof (gender_stats_run data Female) as Hf.
  cbv zeta in Hm, Hf. rewrite <- !group_nonempty.
  destruct (kpis data) as [e|k].
  { destruct Hk as [-> Hz]. split; split.
    - intros [agg H]. discriminate H.
    - tauto.
    - tauto.
    - reflexivity. }
  destruct (gender_stats data Male) as [e|m].
  { destruct Hm as [-> Hz]. split; split.
    - intros [agg H]. discriminate H.
    - tauto.
    - tauto.
    - reflexivity. }
  destruct (gender_stats data Female) as [e|f].
  { destruct Hf as [-> Hz]. split; split.
    - intros [agg H]. discriminate H.
    - tauto.
    - tauto.
    - reflexivity. }
  split; split.
  - tauto.
  - intros _. eexists. reflexivity.
  - discriminate.
  - tauto.
Qed.


End ReportAggregation.


(** ** Age groups of the reports and age bands of the engine *)

(** X18. The reports and the engine cut the ages at the same edges 25, 35,
    45, 55 and 65: for an age from 25 to 199 the report's age group carries
    the label of the engine's band, and from 0 to 24 the report says [18-24]
    where the engine says [<25]. They part outside 0..199, where the engine
    assigns no band and the report still assigns its first group (negative
    ages) or its last (200 and more). *)
Theorem report_age_group_follows_engine_bands (a : Z) :
  ((25 <= a < 200)%Z ->
     exists b, Pd.cut bins labels a = Some b
               /\ Report.age_group a = AgeBand_label b)
  /\ ((0 <= a < 25)%Z ->
        Pd.cut bins labels a = Some under25
        /\ Report.age_group a = "18-24"%string)
  /\ ((a < 0)%Z ->
        Pd.cut bins labels a = None /\ Report.age_group a = "18-24"%string)
  /\ ((200 <= a)%Z ->
        Pd.cut bins labels a = None /\ Report.age_group a = "65+"%string).
Proof.
  unfold Report.age_group.
  destruct (Z.ltb_spec a 25), (Z.ltb_spec a 35), (Z.ltb_spec a 45),
    (Z.ltb_spec a 55), (Z.ltb_spec a 65); try lia;
  (split; [intro R | split; [intro R | split; intro R]]); try lia.
  all: try (split; [apply cut_age_outside; lia | reflexivity]).
  all: try (split; [apply cut_age_interval; lia | reflexivity]).
  - exists from25to34. split; [apply cut_age_interval; lia | reflexivity].
  - exists from35to44. split; [apply cut_age_interval; lia | reflexivity].
  - exists from45to54. split; [apply cut_age_interval; lia | reflexivity].
  - exists from55to64. split; [apply cut_age_interval; lia | reflexivity].
  - exists over65. split; [apply cut_age_interval; lia | reflexivity].
Qed.

Lemma report_age_group_witness :
  (exists b, Pd.cut bins labels 25 = Some b
             /\ Report.age_group 25 = AgeBand_label b)
  /\ (Pd.cut bins labels 200 = None /\ Report.age_group 200 = "65+"%string).
Proof.
  split.
  - apply (proj1 (report_age_group_follows_engine_bands 25)). lia.
  - apply (proj2 (proj2 (proj2 (report_age_group_follows_engine_bands 200)))). lia.
Defined.
